(** * The agent leader lock API: store, wire protocol, client, lock commands

    A shallow embedding of

    - [agent/leader_socket.go]: the [LeaderServer] lock store ([load], [cas]),
      its HTTP handler [ServeHTTP], and the [LeaderClient] ([Get],
      [CompareAndSwap]);
    - [clicommand/lock_do.go], [clicommand/lock_done.go] and the two files of
      [unnamed/part_002] (lock acquire, lock release): the lock commands,
      written purely in terms of the client;
    - [unnamed/part_003]: a second copy of the lock done command, which uses
      other state tokens than [clicommand/lock_done.go].

    Go strings are [string]; the map [locks] is a [gmap string string] read
    with Go's zero-value default; [url.Values] is a [gmap string (list string)];
    status codes and durations are [Z]. Methods with a pointer receiver are
    written in state-passing style. The mutex [mu] makes every method of the
    store one atomic transition, which is how the methods are modelled. *)

From Stdlib Require Import ZArith String Ascii List Lia.
From stdpp Require Import base option strings gmap pretty.

Import ListNotations.
Local Open Scope string_scope.
Local Open Scope Z_scope.

(** The line feed written by [fmt.Fprintln], [http.Error] and the ["\n"] of
    the format strings. *)
Definition LF : string := String (ascii_of_nat 10) EmptyString.

(** ** Constants of [net/http] and [time] used by the sources *)

Module http.
Definition MethodGet : string := "GET".
Definition MethodPatch : string := "PATCH".

Definition StatusOK : Z := 200.
Definition StatusNoContent : Z := 204.
Definition StatusNotModified : Z := 304.
Definition StatusBadRequest : Z := 400.
Definition StatusNotFound : Z := 404.
Definition StatusMethodNotAllowed : Z := 405.
Definition StatusRequestHeaderFieldsTooLarge : Z := 431.

(** The limit on the request line and headers of a server whose
    [MaxHeaderBytes] is zero, as in the [&http.Server{}] of
    [NewLeaderServer], and the slop the server adds when it reads a
    request. *)
Definition DefaultMaxHeaderBytes : Z := Z.shiftl 1 20.
Definition initialReadLimitSize : Z := DefaultMaxHeaderBytes + 4096.
End http.

(** ** [url.QueryEscape], as [url.Values.Encode] applies it to the keys and
    values of the query *)

Module url.

(** Letters, digits, [-], [_], [.] and [~] are written as they are. *)
Definition unreserved (c : ascii) : bool :=
  let n := nat_of_ascii c in
  ((48 <=? n) && (n <=? 57) || (65 <=? n) && (n <=? 90)
   || (97 <=? n) && (n <=? 122)
   || (n =? 45) || (n =? 95) || (n =? 46) || (n =? 126))%nat.

Definition upperhex (n : nat) : ascii :=
  ascii_of_nat (if (n <? 10)%nat then 48 + n else 55 + n)%nat.

(** A space becomes [+], every other byte [%XX]. *)
Fixpoint QueryEscape (s : string) : string :=
  match s with
  | EmptyString => EmptyString
  | String c s' =>
      if unreserved c then String c (QueryEscape s')
      else if (nat_of_ascii c =? 32)%nat then String "+" (QueryEscape s')
      else
        String "%"
          (String (upperhex (nat_of_ascii c / 16))
             (String (upperhex (nat_of_ascii c mod 16)) (QueryEscape s')))
  end.

End url.

Module time.
(** A [time.Duration] counts nanoseconds. *)
Definition Millisecond : Z := 1000000.
End time.

(** ** [agent/leader_socket.go] *)

Module agent.

(** Go's [error] values are represented by their message. *)
Definition error : Type := string.

(** *** The lock store *)

Record LeaderServer : Type := mkLeaderServer {
  locks : gmap string string
}.

(** [make(map[string]string)] in [NewLeaderServer]. *)
Definition NewLeaderServer : LeaderServer := {| locks := ∅ |}.

(** [s.locks[key]]: a Go map read gives the zero value for an absent key. *)
Definition index (m : gmap string string) (key : string) : string :=
  default "" (m !! key).

Definition load (s : LeaderServer) (key : string) : LeaderServer * string :=
  (s, index (locks s) key).

Definition cas (s : LeaderServer) (key old new : string)
  : LeaderServer * bool :=
  if String.eqb (index (locks s) key) old
  then ({| locks := <[key := new]> (locks s) |}, true)
  else (s, false).

(** *** The handler *)

(** The parts of [*http.Request] the handler looks at. [Form] is the parsed
    query, a [url.Values]. *)
Record Request : Type := mkRequest {
  Method : string;
  Path : string;
  Form : gmap string (list string)
}.

(** [r.FormValue(name)]: the first value of [name], or the empty string. *)
Definition FormValue (r : Request) (name : string) : string :=
  match Form r !! name with
  | Some (v :: _) => v
  | _ => ""
  end.

(** An [http.ResponseWriter]: the status written by [WriteHeader], if any,
    and the body written so far. *)
Record ResponseWriter : Type := mkResponseWriter {
  header : option Z;
  written : string
}.

Definition newResponseWriter : ResponseWriter :=
  {| header := None; written := "" |}.

Definition WriteHeader (w : ResponseWriter) (code : Z) : ResponseWriter :=
  match header w with
  | Some _ => w
  | None => {| header := Some code; written := written w |}
  end.

(** [w.Write(b)] sends status 200 first when no header was written. *)
Definition Write_ (w : ResponseWriter) (b : string) : ResponseWriter :=
  let w' := WriteHeader w http.StatusOK in
  {| header := header w'; written := written w' ++ b |}.

(** [http.Error(w, msg, code)]. *)
Definition Error (w : ResponseWriter) (msg : string) (code : Z)
  : ResponseWriter :=
  Write_ (WriteHeader w code) (msg ++ LF).

Definition lockPath : string := "/api/leader/v0/lock".

Definition ServeHTTP (s : LeaderServer) (w : ResponseWriter) (r : Request)
  : LeaderServer * ResponseWriter :=
  if negb (String.eqb (Path r) lockPath)
  then (s, Error w "not found" http.StatusNotFound)
  else if String.eqb (Method r) http.MethodGet then
    let key := FormValue r "key" in
    if String.eqb key ""
    then (s, Error w "key parameter missing" http.StatusBadRequest)
    else
      let '(s', v) := load s key in
      (s', Write_ w v)
  else if String.eqb (Method r) http.MethodPatch then
    let key := FormValue r "key" in
    let old := FormValue r "old" in
    let new := FormValue r "new" in
    if String.eqb key ""
    then (s, Error w "key parameter missing" http.StatusBadRequest)
    else
      let '(s', replaced) := cas s key old new in
      if replaced
      then (s', WriteHeader w http.StatusNoContent)
      else (s', WriteHeader w http.StatusNotModified)
  else (s, Error w "unsupported method" http.StatusMethodNotAllowed).

(** *** The client *)

(** An [*http.Response] as the client sees it: the status code and what
    [io.ReadAll(resp.Body)] gives. *)
Record Response : Type := mkResponse {
  StatusCode : Z;
  Body : error + string
}.

(** [LeaderClient] wraps an [*http.Client]; [cli] stands for [c.cli.Do]
    (and [c.cli.Get]) over a world [W] that the round trip may change. It
    gives an error or a response. *)
Record LeaderClient (W : Type) : Type := mkLeaderClient {
  cli : Request -> W -> W * (error + Response)
}.
Arguments cli {W} _ _ _.
Arguments mkLeaderClient {W} _.

(** The request for ["http://agent/api/leader/v0/lock"] with the query
    [q]; [q.Set(k, v)] replaces the values of [k] by the single [v], and the
    server parses back what [q.Encode()] wrote. *)
Definition Set_ (q : gmap string (list string)) (k v : string)
  : gmap string (list string) :=
  <[k := [v]]> q.

Definition getRequest (key : string) : Request :=
  {| Method := http.MethodGet; Path := lockPath;
     Form := Set_ ∅ "key" key |}.

Definition casRequest (key old new : string) : Request :=
  {| Method := http.MethodPatch; Path := lockPath;
     Form := Set_ (Set_ (Set_ ∅ "key" key) "old" old) "new" new |}.

(** [fmt.Errorf] with the two formats of the client. *)
Definition errStatusUnread (code : Z) : error :=
  "invalid status code " ++ pretty code ++
  ", and unable to read response body to find out more".

Definition errStatus (code : Z) (b : string) : error :=
  "invalid status code " ++ pretty code ++ ": " ++ b.

Section Client.
Context {W : Type} (c : LeaderClient W).

Definition Get (key : string) (w : W) : W * (string * option error) :=
  let '(w', r) := cli c (getRequest key) w in
  match r with
  | inl err => (w', ("", Some err))
  | inr resp =>
      if negb (StatusCode resp =? http.StatusOK) then
        match Body resp with
        | inl _ => (w', ("", Some (errStatusUnread (StatusCode resp))))
        | inr b => (w', ("", Some (errStatus (StatusCode resp) b)))
        end
      else
        match Body resp with
        | inl err => (w', ("", Some err))
        | inr v => (w', (v, None))
        end
  end.

Definition CompareAndSwap (key old new : string) (w : W)
  : W * (bool * option error) :=
  let '(w', r) := cli c (casRequest key old new) w in
  match r with
  | inl err => (w', (false, Some err))
  | inr resp =>
      if StatusCode resp =? http.StatusNoContent then (w', (true, None))
      else if StatusCode resp =? http.StatusNotModified
      then (w', (false, None))
      else
        match Body resp with
        | inl _ => (w', (false, Some (errStatusUnread (StatusCode resp))))
        | inr b => (w', (false, Some (errStatus (StatusCode resp) b)))
        end
  end.
End Client.

(** *** A client connected to a leader

    The socket carries one request to the server and the response back:
    the world of this client is the leader's store. A handler that never
    calls [WriteHeader] or [Write] answers 200 with an empty body. *)
Definition deliver (w : ResponseWriter) : Response :=
  {| StatusCode := default http.StatusOK (header w);
     Body := inr (written w) |}.

(** The bytes of a request on the wire, as the client's transport writes
    them. [q.Encode()] writes [key=value] for every value, both escaped,
    with [&] in between; the order of the keys does not change the length. *)
Definition strlen (s : string) : Z := Z.of_nat (String.length s).

Definition encodedPairs (q : gmap string (list string)) : list Z :=
  List.concat
    (List.map
       (fun kv : string * list string =>
          List.map
            (fun v : string =>
               strlen (url.QueryEscape (fst kv)) + 1
               + strlen (url.QueryEscape v))
            (snd kv))
       (map_to_list q)).

Definition EncodeLen (q : gmap string (list string)) : Z :=
  match encodedPairs q with
  | [] => 0
  | n :: ns => fold_left Z.add ns n + Z.of_nat (List.length ns)
  end.

(** The request line: method, request URI, protocol, CR LF. The URI has
    [?] and the query when the query is not empty; the paths this client
    asks for need no escaping. *)
Definition requestLineBytes (r : Request) : Z :=
  strlen (Method r) + 1 + strlen (Path r)
  + (if EncodeLen (Form r) =? 0 then 0 else 1 + EncodeLen (Form r))
  + strlen " HTTP/1.1" + 2.

(** The header lines of the client's transport for the URL
    [http://agent/...]: Host, User-Agent, Content-Length for a PATCH, POST
    or PUT without body, Accept-Encoding, and the empty line. *)
Definition headerBytes (r : Request) : Z :=
  strlen "Host: agent" + 2
  + strlen "User-Agent: Go-http-client/1.1" + 2
  + (if String.eqb (Method r) http.MethodPatch
        || String.eqb (Method r) "POST" || String.eqb (Method r) "PUT"
     then strlen "Content-Length: 0" + 2 else 0)
  + strlen "Accept-Encoding: gzip" + 2
  + 2.

Definition requestBytes (r : Request) : Z :=
  requestLineBytes r + headerBytes r.

(** The server reads request line and headers under its read limit. *)
Definition fits (r : Request) : bool :=
  requestBytes r <=? http.initialReadLimitSize.

Definition tooLarge : Response :=
  {| StatusCode := http.StatusRequestHeaderFieldsTooLarge;
     Body := inr "431 Request Header Fields Too Large" |}.

(** One request on a connection of the server of [NewLeaderServer]: a
    request over the limit is answered 431 and never reaches the handler. *)
Definition serveConn (s : LeaderServer) (r : Request)
  : LeaderServer * Response :=
  if fits r then
    let '(s', w) := ServeHTTP s newResponseWriter r in (s', deliver w)
  else (s, tooLarge).

Definition NewLeaderClient : LeaderClient LeaderServer :=
  {| cli := fun r s =>
       let '(s', resp) := serveConn s r in (s', inr resp) |}.

End agent.


(** ** The lock commands: [clicommand/lock_do.go], [clicommand/lock_done.go],
    and lock acquire and lock release of [unnamed/part_002]

    Each action is modelled from the point where it holds the key and a
    client. A run gives the world it leaves, the client calls and sleeps it
    made, in order, and how it ended. The two loops take fuel, one unit per
    iteration; [Running] says that the loop was still going when the fuel
    ran out. *)

Module clicommand.
Import agent.

Inductive Event : Type :=
| EvGet (key state : string) (err : option error)
| EvCompareAndSwap (key old new : string) (done : bool) (err : option error)
| EvSleep (d : Z).

Inductive Outcome : Type :=
| Return (stdout : string)
    (* [return nil] after the writes to [c.App.Writer]: exit status 0 *)
| Exit (code : Z) (stderr : string)
    (* [os.Exit(code)] after the write to [c.App.ErrWriter] *)
| Running.

Record Run (W : Type) : Type := mkRun {
  world : W;
  trace : list Event;
  outcome : Outcome
}.
Arguments mkRun {W} _ _ _.
Arguments world {W} _.
Arguments trace {W} _.
Arguments outcome {W} _.

(** The events [evs] happened, then the run [r]. *)
Definition after {W : Type} (evs : list Event) (r : Run W) : Run W :=
  {| world := world r; trace := evs ++ trace r; outcome := outcome r |}.

Definition casErrMessage (err : error) : string :=
  "Error performing compare-and-swap: " ++ err ++ LF.

Definition getErrMessage (err : error) : string :=
  "Error performing get: " ++ err ++ LF.

Definition pollInterval : Z := 100 * time.Millisecond.

Section Actions.
Context {W : Type} (cli : LeaderClient W).

(** lock acquire, [unnamed/part_002] lines 52-63. *)
Fixpoint lockAcquireAction (fuel : nat) (key : string) (w : W) : Run W :=
  match fuel with
  | O => mkRun w [] Running
  | S fuel' =>
      let '(w1, (done, err)) := CompareAndSwap cli key "" "1" w in
      let ev := EvCompareAndSwap key "" "1" done err in
      match err with
      | Some e => mkRun w1 [ev] (Exit 1 (casErrMessage e))
      | None =>
          if done then mkRun w1 [ev] (Return "")
          else after [ev; EvSleep pollInterval]
                     (lockAcquireAction fuel' key w1)
      end
  end.

(** lock release, [unnamed/part_002] (second file) lines 113-122. *)
Definition lockReleaseAction (key : string) (w : W) : Run W :=
  let '(w1, (done, err)) := CompareAndSwap cli key "1" "" w in
  let ev := EvCompareAndSwap key "1" "" done err in
  match err with
  | Some e => mkRun w1 [ev] (Exit 1 (casErrMessage e))
  | None =>
      if negb done
      then mkRun w1 [ev]
             (Exit 1 ("Lock in invalid state to release - investigate with 'lock get'" ++ LF))
      else mkRun w1 [ev] (Return "")
  end.

(** lock do, [clicommand/lock_do.go] lines 61-99. *)
Fixpoint lockDoAction (fuel : nat) (key : string) (w : W) : Run W :=
  match fuel with
  | O => mkRun w [] Running
  | S fuel' =>
      let '(w1, (state, err)) := Get cli key w in
      let evg := EvGet key state err in
      match err with
      | Some e => mkRun w1 [evg] (Exit 1 (getErrMessage e))
      | None =>
          if String.eqb state "" then
            let '(w2, (done, err)) := CompareAndSwap cli key "" "1" w1 in
            let evc := EvCompareAndSwap key "" "1" done err in
            match err with
            | Some e => mkRun w2 [evg; evc] (Exit 1 (casErrMessage e))
            | None =>
                if done then mkRun w2 [evg; evc] (Return ("do" ++ LF))
                else after [evg; evc] (lockDoAction fuel' key w2)
            end
          else if String.eqb state "1" then
            after [evg; EvSleep pollInterval] (lockDoAction fuel' key w1)
          else if String.eqb state "2" then
            mkRun w1 [evg] (Return ("done" ++ LF))
          else
            mkRun w1 [evg]
              (Exit 1 ("Lock in invalid state for do-once - investigate with 'lock get'" ++ LF))
      end
  end.

(** lock done, [clicommand/lock_done.go] lines 52-61. *)
Definition lockDoneAction (key : string) (w : W) : Run W :=
  let '(w1, (done, err)) := CompareAndSwap cli key "doing" "done" w in
  let ev := EvCompareAndSwap key "doing" "done" done err in
  match err with
  | Some e => mkRun w1 [ev] (Exit 1 (casErrMessage e))
  | None =>
      if negb done
      then mkRun w1 [ev]
             (Exit 1 ("Lock in invalid state to mark complete - investigate with 'lock get'" ++ LF))
      else mkRun w1 [ev] (Return "")
  end.

End Actions.
End clicommand.

(** ** [unnamed/part_003]: the other copy of lock done *)

Module part_003.
Import agent clicommand.

(** lock done, [unnamed/part_003] lines 52-61. *)
Definition lockDoneAction {W : Type} (cli : LeaderClient W)
    (key : string) (w : W) : Run W :=
  let '(w1, (done, err)) := CompareAndSwap cli key "1" "2" w in
  let ev := EvCompareAndSwap key "1" "2" done err in
  match err with
  | Some e => mkRun w1 [ev] (Exit 1 (casErrMessage e))
  | None =>
      if negb done
      then mkRun w1 [ev]
             (Exit 1 ("Lock in invalid state to mark complete - investigate with 'lock get'" ++ LF))
      else mkRun w1 [ev] (Return "")
  end.

End part_003.


(** ** Vocabulary of the statements *)

Import agent clicommand.

(** The handler on a fresh response writer, and the status the client sees. *)
Definition serve (s : LeaderServer) (r : Request)
  : LeaderServer * ResponseWriter :=
  ServeHTTP s newResponseWriter r.

Definition status (s : LeaderServer) (r : Request) : Z :=
  StatusCode (deliver (snd (serve s r))).

(** A query parameter is missing when the parsed query has no entry for it. *)
Definition missing (r : Request) (name : string) : Prop :=
  Form r !! name = None.

(** [sub] occurs in [s]. *)
Fixpoint contains (sub s : string) : bool :=
  String.prefix sub s ||
  match s with
  | EmptyString => false
  | String _ s' => contains sub s'
  end.

(** Histories of the store: the calls made on it since [NewLeaderServer]. *)
Inductive StoreOp : Type :=
| OpLoad (key : string)
| OpCas (key old new : string).

Definition apply_op (s : LeaderServer) (op : StoreOp) : LeaderServer :=
  match op with
  | OpLoad k => fst (load s k)
  | OpCas k o n => fst (cas s k o n)
  end.

Definition run_ops (s : LeaderServer) (ops : list StoreOp) : LeaderServer :=
  fold_left apply_op ops s.

(** No call of the history wrote [key]: every [cas] on it reported false. *)
Fixpoint never_written (key : string) (s : LeaderServer) (ops : list StoreOp)
  : bool :=
  match ops with
  | [] => true
  | op :: ops' =>
      match op with
      | OpLoad _ => true
      | OpCas k o n => negb (String.eqb k key && snd (cas s k o n))
      end && never_written key (apply_op s op) ops'
  end.

(** A leader shared with other processes. The mutex serialises requests, so
    an interleaving is a schedule: the batch of requests of the other
    processes that the leader serves before each request of this client. *)
Definition serveAll (s : LeaderServer) (rs : list Request) : LeaderServer :=
  fold_left (fun s r => fst (serve s r)) rs s.

(** Of the requests of the others, those over the server's limit never
    reach the handler. *)
Definition sharedClient : LeaderClient (LeaderServer * list (list Request)) :=
  {| cli := fun r w =>
       let s0 := serveAll (fst w) (List.filter fits (hd [] (snd w))) in
       let '(s', resp) := serveConn s0 r in
       ((s', tl (snd w)), inr resp) |}.

(** The requests the lock commands send for a key, and the keys for which
    all of them are within the server's limit. *)
Definition commandRequests (key : string) : list Request :=
  [getRequest key; casRequest key "" "1"; casRequest key "1" "";
   casRequest key "1" "2"; casRequest key "doing" "done"].

Definition fitsKey (key : string) : bool :=
  forallb fits (commandRequests key).

(** [n] failed attempts of lock acquire, each followed by its sleep. *)
Fixpoint retries (n : nat) (key : string) : list Event :=
  match n with
  | O => []
  | S n' =>
      EvCompareAndSwap key "" "1" false None :: EvSleep pollInterval
        :: retries n' key
  end.

(** [n] polls of lock do on a key in state ["1"]. *)
Fixpoint polls (n : nat) (key : string) : list Event :=
  match n with
  | O => []
  | S n' => EvGet key "1" None :: EvSleep pollInterval :: polls n' key
  end.

(** *** Statements of the specification that the code is checked against *)

(** A compare-and-swap request with a parameter missing is answered 400. *)
Definition patch_missing_claim (s : LeaderServer) (r : Request) : Prop :=
  missing r "key" \/ missing r "old" \/ missing r "new" ->
  status s r = http.StatusBadRequest.

(** Acquire, release, acquire again on a leader nobody else talks to: all
    three return, the key is unlocked after the release, and the second
    acquire needs one compare-and-swap and no sleep. *)
Definition acquire_release_round_trip (key : string) (s : LeaderServer)
  : Prop :=
  forall fuel : nat,
    let a1 := lockAcquireAction NewLeaderClient (S fuel) key s in
    let r := lockReleaseAction NewLeaderClient key (world a1) in
    let a2 := lockAcquireAction NewLeaderClient (S fuel) key (world r) in
    outcome a1 = Return ""
    /\ outcome r = Return ""
    /\ snd (load (world r) key) = ""
    /\ outcome a2 = Return ""
    /\ trace a2 = [EvCompareAndSwap key "" "1" true None].

Definition releaseInvalidState : string :=
  "Lock in invalid state to release - investigate with 'lock get'" ++ LF.

Definition doneInvalidState : string :=
  "Lock in invalid state to mark complete - investigate with 'lock get'" ++ LF.

(** Release ends in the invalid-state exit and leaves the store as it was. *)
Definition release_invalid_state (key : string) (s : LeaderServer) : Prop :=
  let r := lockReleaseAction NewLeaderClient key s in
  outcome r = Exit 1 releaseInvalidState /\ world r = s.

(** *** Further vocabulary *)

(** Requests served one after the other, with the status of each answer. *)
Fixpoint serveSeq (s : LeaderServer) (rs : list Request)
  : LeaderServer * list Z :=
  match rs with
  | [] => (s, [])
  | r :: rs' =>
      let '(s1, w) := serve s r in
      let '(s2, codes) := serveSeq s1 rs' in
      (s2, StatusCode (deliver w) :: codes)
  end.

(** A compare-and-swap request on [key] that expects [old] and writes
    something else. *)
Definition swapOf (key old : string) (r : Request) : Prop :=
  Method r = http.MethodPatch /\ Path r = lockPath
  /\ FormValue r "key" = key /\ FormValue r "old" = old
  /\ FormValue r "new" ≠ old.

(** A client whose transport fails with [err] and leaves the world alone. *)
Definition brokenClient {W : Type} (err : error) : LeaderClient W :=
  {| cli := fun _ w => (w, inl err) |}.

Definition doInvalidState : string :=
  "Lock in invalid state for do-once - investigate with 'lock get'" ++ LF.

(** The calls lock do makes on [key]: reads of the key, attempts to swap
    the empty token for ["1"], and sleeps of the poll interval. *)
Definition doEvent (key : string) (ev : Event) : Prop :=
  match ev with
  | EvGet k _ _ => k = key
  | EvCompareAndSwap k old new _ _ => k = key /\ old = "" /\ new = "1"
  | EvSleep d => d = pollInterval
  end.

(** The requests that lock do and the lock done of [unnamed/part_003]
    send: a read, the swap of the empty token for ["1"], the swap of ["1"]
    for ["2"]. *)
Definition doOnceRequest (r : Request) : Prop :=
  (exists key : string, r = getRequest key)
  \/ (exists key : string, r = casRequest key "" "1")
  \/ (exists key : string, r = casRequest key "1" "2").

(** How far a do-once token is: new, doing, done. *)
Definition rank (token : string) : option nat :=
  if String.eqb token "" then Some 0%nat
  else if String.eqb token "1" then Some 1%nat
  else if String.eqb token "2" then Some 2%nat
  else None.

(** ** [generateS3Clients] of the artifact downloader, which follows lock
    done in [clicommand/lock_done.go] (lines 233-253) *)

Module artifact_downloader.
Import agent.

(** The field of [api.Artifact] that [generateS3Clients] reads. *)
Record Artifact : Type := mkArtifact {
  UploadDestination : string
}.

Definition isS3 (artifact : Artifact) : bool :=
  String.prefix "s3://" (UploadDestination artifact).

Section GenerateS3Clients.
Context {S3 W : Type}.

(** Not in the sources: [ParseS3Destination] splits an s3 destination into
    bucket name and path, and [NewS3Client] makes the client of a bucket, or
    fails; it may depend on and change the world [W]. *)
Variable ParseS3Destination : string -> string * string.
Variable NewS3Client : string -> W -> W * (error + S3).

Definition bucketOf (artifact : Artifact) : string :=
  fst (ParseS3Destination (UploadDestination artifact)).

(** The loop over [artifacts], from the map [s3Clients] built so far. *)
Fixpoint generateS3Clients_loop (s3Clients : gmap string S3)
    (artifacts : list Artifact) (w : W) : W * (error + gmap string S3) :=
  match artifacts with
  | [] => (w, inr s3Clients)
  | artifact :: rest =>
      if negb (isS3 artifact)
      then generateS3Clients_loop s3Clients rest w
      else
        let bucketName := bucketOf artifact in
        match s3Clients !! bucketName with
        | Some _ => generateS3Clients_loop s3Clients rest w
        | None =>
            let '(w1, r) := NewS3Client bucketName w in
            match r with
            | inl err =>
                (w1, inl ("failed to create S3 client for bucket "
                          ++ bucketName ++ ": " ++ err))
            | inr client =>
                generateS3Clients_loop (<[bucketName := client]> s3Clients)
                  rest w1
            end
        end
  end.

Definition generateS3Clients (artifacts : list Artifact) (w : W)
  : W * (error + gmap string S3) :=
  generateS3Clients_loop ∅ artifacts w.

End GenerateS3Clients.

(** A [NewS3Client] that records the buckets it is called for; what it
    answers may depend on the calls made before. *)
Definition logged {S3 : Type} (mk : string -> list string -> error + S3)
  : string -> list string -> list string * (error + S3) :=
  fun bucketName calls => ((calls ++ [bucketName])%list, mk bucketName calls).

End artifact_downloader.

(** ** The store *)

Lemma index_insert_eq (m : gmap string string) (key v : string) :
  index (<[key := v]> m) key = v.
Proof. unfold index. by rewrite lookup_insert_eq. Qed.

Lemma index_insert_ne (m : gmap string string) (key key' v : string) :
  key ≠ key' -> index (<[key := v]> m) key' = index m key'.
Proof. intros Hne. unfold index. by rewrite lookup_insert_ne. Qed.

Lemma cas_match (s : LeaderServer) (key old new : string) :
  index (locks s) key = old ->
  cas s key old new = ({| locks := <[key := new]> (locks s) |}, true).
Proof.
  intros Hold. unfold cas.
  by rewrite (proj2 (String.eqb_eq _ _) Hold).
Qed.

Lemma cas_mismatch (s : LeaderServer) (key old new : string) :
  index (locks s) key ≠ old -> cas s key old new = (s, false).
Proof.
  intros Hold. unfold cas.
  by rewrite (proj2 (String.eqb_neq _ _) Hold).
Qed.

(** C1. Compare-and-swap on the store: when the current token of [key]
    (the empty string for an unset key) equals [old], [cas] replaces it with
    [new] and returns true; otherwise it returns false and the store is the
    one it was given. *)
Theorem cas_semantics (s : LeaderServer) (key old new : string) :
  (snd (load s key) = old ->
     cas s key old new = ({| locks := <[key := new]> (locks s) |}, true)
     /\ snd (load (fst (cas s key old new)) key) = new)
  /\ (snd (load s key) ≠ old -> cas s key old new = (s, false)).
Proof.
  split; cbn [load snd]; intros Hold.
  - rewrite (cas_match _ _ _ _ Hold). split; [done |].
    cbn. apply index_insert_eq.
  - by apply cas_mismatch.
Qed.

Lemma cas_semantics_witness :
  (cas NewLeaderServer "build-lock" "" "1"
     = ({| locks := <["build-lock" := "1"]> ∅ |}, true)
   /\ snd (load (fst (cas NewLeaderServer "build-lock" "" "1")) "build-lock")
      = "1")
  /\ cas NewLeaderServer "build-lock" "1" "3" = (NewLeaderServer, false).
Proof.
  split.
  - apply (proj1 (cas_semantics NewLeaderServer "build-lock" "" "1")).
    reflexivity.
  - apply (proj2 (cas_semantics NewLeaderServer "build-lock" "1" "3")).
    vm_compute. discriminate.
Defined.

(** The scenario of the specification, run on the store. *)
Example build_lock_scenario :
  let s0 := NewLeaderServer in
  let '(s1, r1) := cas s0 "build-lock" "" "1" in
  let '(s2, r2) := cas s1 "build-lock" "1" "2" in
  let '(s3, r3) := cas s2 "build-lock" "1" "3" in
  (r1, snd (load s1 "build-lock"), r2, snd (load s2 "build-lock"),
   r3, snd (load s3 "build-lock"))
  = (true, "1", true, "2", false, "2").
Proof. reflexivity. Qed.

Lemma never_written_unset (key : string) (ops : list StoreOp) :
  forall s : LeaderServer,
    locks s !! key = None ->
    never_written key s ops = true ->
    locks (run_ops s ops) !! key = None.
Proof.
  induction ops as [| op ops IH]; intros s Hs Hnw; [done |].
  cbn [never_written] in Hnw. apply andb_prop in Hnw as [Hop Hrest].
  cbn [run_ops fold_left]. apply IH; [| done].
  destruct op as [k | k o n]; cbn [apply_op load fst]; [done |].
  unfold cas in *. destruct (String.eqb (index (locks s) k) o); [| done].
  cbn [fst snd locks] in *. rewrite andb_true_r in Hop.
  apply negb_true_iff, String.eqb_neq in Hop.
  by rewrite lookup_insert_ne.
Qed.

(** C6. Reading a key that was never written: after any history of calls
    on a new store none of which wrote [key], [load] gives the empty string.
    [load] has no error result. *)
Theorem load_never_written (key : string) (ops : list StoreOp) :
  never_written key NewLeaderServer ops = true ->
  snd (load (run_ops NewLeaderServer ops) key) = "".
Proof.
  intros Hnw. cbn [load snd]. unfold index.
  by rewrite (never_written_unset key ops NewLeaderServer).
Qed.

Lemma load_never_written_witness :
  snd (load (run_ops NewLeaderServer
               [OpCas "a" "" "1"; OpCas "b" "x" "y"; OpLoad "b";
                OpCas "a" "1" ""])
            "b") = "".
Proof.
  apply (load_never_written "b"
           [OpCas "a" "" "1"; OpCas "b" "x" "y"; OpLoad "b"; OpCas "a" "1" ""]).
  vm_compute. reflexivity.
Defined.

(** C9. Frame property of the store: [cas] on [key], whether it succeeds or
    not, leaves the entry of every other key as it was, and [load] gives back
    the store it was given. *)
Theorem store_frame (s : LeaderServer) (key old new key' : string) :
  key' ≠ key ->
  locks (fst (cas s key old new)) !! key' = locks s !! key'
  /\ snd (load (fst (cas s key old new)) key') = snd (load s key')
  /\ fst (load s key') = s
  /\ fst (load s key) = s.
Proof.
  intros Hne.
  assert (Hl : locks (fst (cas s key old new)) !! key' = locks s !! key').
  { unfold cas. destruct (String.eqb _ _); cbn; [| done].
    by rewrite lookup_insert_ne. }
  split; [done |]. split; [| done].
  cbn [load snd]. unfold index. by rewrite Hl.
Qed.

Lemma store_frame_witness :
  locks (fst (cas NewLeaderServer "a" "" "1")) !! "b"
    = locks NewLeaderServer !! "b"
  /\ snd (load (fst (cas NewLeaderServer "a" "" "1")) "b")
     = snd (load NewLeaderServer "b")
  /\ fst (load NewLeaderServer "b") = NewLeaderServer
  /\ fst (load NewLeaderServer "a") = NewLeaderServer.
Proof.
  apply (store_frame NewLeaderServer "a" "" "1" "b"). discriminate.
Defined.

(** ** The handler *)

Lemma FormValue_missing (r : Request) (name : string) :
  missing r name -> FormValue r name = "".
Proof. unfold missing, FormValue. by intros ->. Qed.

Lemma status_Error (msg : string) (code : Z) :
  StatusCode (deliver (Error newResponseWriter msg code)) = code.
Proof. reflexivity. Qed.

Lemma serve_patch (s : LeaderServer) (r : Request) :
  Method r = http.MethodPatch -> Path r = lockPath ->
  serve s r =
    if String.eqb (FormValue r "key") ""
    then (s, Error newResponseWriter "key parameter missing"
               http.StatusBadRequest)
    else
      let '(s', replaced) :=
        cas s (FormValue r "key") (FormValue r "old") (FormValue r "new") in
      (s', WriteHeader newResponseWriter
             (if replaced then http.StatusNoContent
              else http.StatusNotModified)).
Proof.
  intros Hm Hp. unfold serve, ServeHTTP. rewrite Hm, Hp. cbn [negb].
  change (String.eqb lockPath lockPath) with true. cbn [negb].
  change (String.eqb http.MethodPatch http.MethodGet) with false.
  change (String.eqb http.MethodPatch http.MethodPatch) with true.
  cbv iota. destruct (String.eqb (FormValue r "key") ""); [done |].
  by destruct (cas s _ _ _) as [s' []].
Qed.

Lemma serve_get (s : LeaderServer) (r : Request) :
  Method r = http.MethodGet -> Path r = lockPath ->
  serve s r =
    if String.eqb (FormValue r "key") ""
    then (s, Error newResponseWriter "key parameter missing"
               http.StatusBadRequest)
    else (s, Write_ newResponseWriter (index (locks s) (FormValue r "key"))).
Proof.
  intros Hm Hp. unfold serve, ServeHTTP. rewrite Hm, Hp.
  change (String.eqb lockPath lockPath) with true. cbn [negb].
  change (String.eqb http.MethodGet http.MethodGet) with true.
  cbv iota. by destruct (String.eqb (FormValue r "key") "").
Qed.

(** C3, as the code has it. A PATCH request to the lock endpoint has exactly
    one of three outcomes: 400 when the key parameter is missing or empty
    (store as it was), 204 when the key is given and its token equals [old]
    (token replaced by [new]), 304 when the key is given and its token differs
    from [old] (store as it was). A missing [old] or [new] is read as the
    empty string and is no reason for a 400. *)
Theorem patch_outcomes (s : LeaderServer) (r : Request) :
  Method r = http.MethodPatch -> Path r = lockPath ->
  let key := FormValue r "key" in
  let old := FormValue r "old" in
  let new := FormValue r "new" in
  ((key = ""
    /\ serve s r = (s, Error newResponseWriter "key parameter missing"
                         http.StatusBadRequest)
    /\ status s r = http.StatusBadRequest)
   \/ (key ≠ "" /\ snd (load s key) = old
       /\ serve s r = ({| locks := <[key := new]> (locks s) |},
                       WriteHeader newResponseWriter http.StatusNoContent)
       /\ status s r = http.StatusNoContent)
   \/ (key ≠ "" /\ snd (load s key) ≠ old
       /\ serve s r = (s, WriteHeader newResponseWriter
                            http.StatusNotModified)
       /\ status s r = http.StatusNotModified))
  /\ (missing r "old" -> old = "")
  /\ (missing r "new" -> new = "")
  /\ (missing r "key" -> key = "").
Proof.
  intros Hm Hp key old new.
  split; [| repeat split; apply FormValue_missing].
  unfold status. rewrite (serve_patch s r Hm Hp). fold key old new.
  destruct (String.eqb_spec key "") as [Hk | Hk]; [by left |].
  right. cbn [load snd].
  destruct (String.eqb_spec (index (locks s) key) old) as [Ho | Ho].
  - left. by rewrite (cas_match _ _ _ _ Ho).
  - right. by rewrite (cas_mismatch _ _ _ _ Ho).
Qed.

Lemma patch_outcomes_witness :
  status NewLeaderServer (casRequest "k" "" "1") = http.StatusNoContent.
Proof.
  destruct (patch_outcomes NewLeaderServer (casRequest "k" "" "1")
              eq_refl eq_refl) as [[H | [H | H]] _].
  - destruct H as [H _]. vm_compute in H. discriminate H.
  - destruct H as (_ & _ & _ & H). exact H.
  - destruct H as (_ & H & _). exfalso. apply H. reflexivity.
Defined.

(** C3, as it is written, fails: a PATCH request that gives only [key] is
    answered 204, and the swap is done. *)
Lemma patch_missing_claim_fails :
  let r := {| Method := http.MethodPatch; Path := lockPath;
              Form := {[ "key" := ["k"] ]} |} in
  ~ patch_missing_claim NewLeaderServer r
  /\ status NewLeaderServer r = http.StatusNoContent
  /\ fst (serve NewLeaderServer r) = {| locks := {[ "k" := "" ]} |}.
Proof.
  cbv zeta. split; [| split; reflexivity].
  intros H. unfold patch_missing_claim in H.
  assert (Hs : status NewLeaderServer
                 {| Method := http.MethodPatch; Path := lockPath;
                    Form := {[ "key" := ["k"] ]} |} = http.StatusBadRequest).
  { apply H. right. left. reflexivity. }
  vm_compute in Hs. discriminate Hs.
Qed.

(** C10. A Read or CompareAndSwap request whose key parameter is the empty
    string, or absent, which [FormValue] does not tell apart, is answered 400
    with the store as it was, and the answer is the same whatever the store
    holds. *)
Theorem empty_key_rejected (s : LeaderServer) (r : Request) :
  Path r = lockPath ->
  Method r = http.MethodGet \/ Method r = http.MethodPatch ->
  FormValue r "key" = "" ->
  serve s r = (s, Error newResponseWriter "key parameter missing"
                    http.StatusBadRequest)
  /\ status s r = http.StatusBadRequest
  /\ forall s' : LeaderServer, snd (serve s' r) = snd (serve s r).
Proof.
  intros Hp Hm Hk.
  assert (H : forall s0, serve s0 r =
                (s0, Error newResponseWriter "key parameter missing"
                       http.StatusBadRequest)).
  { intros s0. destruct Hm as [Hm | Hm].
    - rewrite (serve_get s0 r Hm Hp), Hk. reflexivity.
    - rewrite (serve_patch s0 r Hm Hp), Hk. reflexivity. }
  split; [apply H |]. split.
  - unfold status. rewrite H. reflexivity.
  - intros s'. by rewrite !H.
Qed.

Lemma empty_key_rejected_witness :
  let s := {| locks := {[ "" := "1" ]} |} in
  (serve s (casRequest "" "1" "") =
     (s, Error newResponseWriter "key parameter missing"
           http.StatusBadRequest)
   /\ status s (casRequest "" "1" "") = http.StatusBadRequest
   /\ forall s' : LeaderServer,
        snd (serve s' (casRequest "" "1" "")) =
        snd (serve s (casRequest "" "1" "")))
  /\ status s {| Method := http.MethodGet; Path := lockPath; Form := ∅ |}
     = http.StatusBadRequest.
Proof.
  cbv zeta. split.
  - apply (empty_key_rejected _ (casRequest "" "1" ""));
      [reflexivity | right; reflexivity | reflexivity].
  - apply (empty_key_rejected _
             {| Method := http.MethodGet; Path := lockPath; Form := ∅ |});
      [reflexivity | left; reflexivity | reflexivity].
Defined.

(** ** The client *)

Lemma prefix_app (a b : string) : String.prefix a (a ++ b) = true.
Proof.
  induction a as [| x a IH]; [by destruct b |].
  change (String x a ++ b) with (String x (a ++ b)).
  cbn [String.prefix]. destruct (Ascii.ascii_dec x x); [exact IH | done].
Qed.

Lemma contains_app (sub p q : string) : contains sub (p ++ sub ++ q) = true.
Proof.
  induction p as [| x p IH].
  - change ("" ++ sub ++ q) with (sub ++ q).
    assert (H := prefix_app sub q).
    destruct (sub ++ q); cbn [contains]; by rewrite H.
  - change (String x p ++ sub ++ q) with (String x (p ++ sub ++ q)).
    cbn [contains]. rewrite IH. apply orb_true_r.
Qed.

Lemma append_empty_r (s : string) : s ++ "" = s.
Proof.
  induction s as [| x s IH]; [done |].
  change (String x s ++ "") with (String x (s ++ "")). by rewrite IH.
Qed.

Lemma contains_skip (sub p s : string) :
  contains sub s = true -> contains sub (p ++ s) = true.
Proof.
  intros H. induction p as [| x p IH]; [exact H |].
  change (String x p ++ s) with (String x (p ++ s)).
  cbn [contains]. rewrite IH. apply orb_true_r.
Qed.

Lemma contains_self (sub : string) : contains sub sub = true.
Proof.
  pose proof (contains_app sub "" "") as H.
  change ("" ++ sub ++ "") with (sub ++ "") in H.
  by rewrite append_empty_r in H.
Qed.

(** C5. What the client makes of a response to its CompareAndSwap request:
    204 gives (true, nil), 304 gives (false, nil), and every other status
    gives false with an error whose message holds the status code and, when
    the body could be read, the body. *)
Theorem client_cas_result {W : Type} (c : LeaderClient W)
    (key old new : string) (w w' : W) (resp : Response) :
  cli c (casRequest key old new) w = (w', inr resp) ->
  let result := snd (CompareAndSwap c key old new w) in
  fst (CompareAndSwap c key old new w) = w'
  /\ (StatusCode resp = http.StatusNoContent -> result = (true, None))
  /\ (StatusCode resp = http.StatusNotModified -> result = (false, None))
  /\ (StatusCode resp ≠ http.StatusNoContent ->
      StatusCode resp ≠ http.StatusNotModified ->
      exists e : error,
        result = (false, Some e)
        /\ contains (pretty (StatusCode resp)) e = true
        /\ forall b : string, Body resp = inr b -> contains b e = true).
Proof.
  intros Hcli. unfold CompareAndSwap. rewrite Hcli.
  repeat split.
  - destruct (Z.eqb_spec (StatusCode resp) http.StatusNoContent); [done |].
    destruct (Z.eqb_spec (StatusCode resp) http.StatusNotModified); [done |].
    by destruct (Body resp).
  - by intros ->.
  - by intros ->.
  - intros H204 H304.
    destruct (Z.eqb_spec (StatusCode resp) http.StatusNoContent); [done |].
    destruct (Z.eqb_spec (StatusCode resp) http.StatusNotModified); [done |].
    destruct (Body resp) as [err | b].
    + exists (errStatusUnread (StatusCode resp)).
      split; [done |]. split; [apply contains_app | done].
    + exists (errStatus (StatusCode resp) b).
      split; [done |]. split; [apply contains_app |].
      intros b' [= <-]. unfold errStatus.
      do 3 apply contains_skip. apply contains_self.
Qed.

Lemma client_cas_result_witness :
  let result :=
    snd (CompareAndSwap NewLeaderClient "" "" "1" NewLeaderServer) in
  fst (CompareAndSwap NewLeaderClient "" "" "1" NewLeaderServer)
    = NewLeaderServer
  /\ exists e : error,
       result = (false, Some e) /\ contains "400" e = true
       /\ contains ("key parameter missing" ++ LF) e = true.
Proof.
  assert (Hcli : cli NewLeaderClient (casRequest "" "" "1") NewLeaderServer =
                 (NewLeaderServer,
                  inr {| StatusCode := 400;
                         Body := inr ("key parameter missing" ++ LF) |}))
    by (vm_compute; reflexivity).
  destruct (client_cas_result NewLeaderClient "" "" "1" NewLeaderServer
              NewLeaderServer _ Hcli) as (Hw & _ & _ & He).
  split; [exact Hw |].
  destruct He as (e & Hr & Hc & Hb); [discriminate | discriminate |].
  exists e. split; [exact Hr |]. split; [exact Hc |].
  apply Hb. reflexivity.
Defined.

(** The client of a leader nobody else talks to. *)

Lemma FormValue_casRequest (key old new : string) :
  FormValue (casRequest key old new) "key" = key
  /\ FormValue (casRequest key old new) "old" = old
  /\ FormValue (casRequest key old new) "new" = new.
Proof.
  unfold FormValue, casRequest, Set_. cbn [Form].
  rewrite lookup_insert_eq.
  rewrite (lookup_insert_ne _ "new" "old") by discriminate.
  rewrite lookup_insert_eq.
  rewrite (lookup_insert_ne _ "new" "key") by discriminate.
  rewrite (lookup_insert_ne _ "old" "key") by discriminate.
  by rewrite lookup_insert_eq.
Qed.

Lemma FormValue_getRequest (key : string) :
  FormValue (getRequest key) "key" = key.
Proof.
  unfold FormValue, getRequest, Set_. cbn [Form]. by rewrite lookup_insert_eq.
Qed.

Lemma serve_casRequest (s : LeaderServer) (key old new : string) :
  key ≠ "" ->
  serve s (casRequest key old new) =
    (fst (cas s key old new),
     WriteHeader newResponseWriter
       (if snd (cas s key old new) then http.StatusNoContent
        else http.StatusNotModified)).
Proof.
  intros Hk. rewrite serve_patch by reflexivity.
  destruct (FormValue_casRequest key old new) as (-> & -> & ->).
  rewrite (proj2 (String.eqb_neq _ _) Hk).
  by destruct (cas s key old new).
Qed.

Lemma serve_getRequest (s : LeaderServer) (key : string) :
  key ≠ "" ->
  serve s (getRequest key) =
    (s, Write_ newResponseWriter (index (locks s) key)).
Proof.
  intros Hk. rewrite serve_get by reflexivity.
  rewrite FormValue_getRequest.
  by rewrite (proj2 (String.eqb_neq _ _) Hk).
Qed.

Lemma fitsKey_requests (key : string) :
  fitsKey key = true ->
  fits (getRequest key) = true
  /\ fits (casRequest key "" "1") = true
  /\ fits (casRequest key "1" "") = true
  /\ fits (casRequest key "1" "2") = true
  /\ fits (casRequest key "doing" "done") = true.
Proof.
  unfold fitsKey, commandRequests. cbn [forallb].
  rewrite !andb_true_iff. tauto.
Qed.

Lemma serveConn_fits (s : LeaderServer) (r : Request) :
  fits r = true ->
  serveConn s r = (fst (serve s r), deliver (snd (serve s r))).
Proof.
  intros Hf. unfold serveConn, serve. rewrite Hf.
  by destruct (ServeHTTP s newResponseWriter r).
Qed.

(** A request over the limit: the handler does not run, the store is as it
    was, and the client reports the status 431. *)
Lemma leader_CompareAndSwap_too_large (s : LeaderServer)
    (key old new : string) :
  fits (casRequest key old new) = false ->
  CompareAndSwap NewLeaderClient key old new s =
    (s, (false,
         Some (errStatus http.StatusRequestHeaderFieldsTooLarge
                 "431 Request Header Fields Too Large"))).
Proof.
  intros Hf. unfold CompareAndSwap, NewLeaderClient, serveConn. cbn [cli].
  rewrite Hf. reflexivity.
Qed.

Lemma leader_Get_too_large (s : LeaderServer) (key : string) :
  fits (getRequest key) = false ->
  Get NewLeaderClient key s =
    (s, ("", Some (errStatus http.StatusRequestHeaderFieldsTooLarge
                     "431 Request Header Fields Too Large"))).
Proof.
  intros Hf. unfold Get, NewLeaderClient, serveConn. cbn [cli].
  rewrite Hf. reflexivity.
Qed.

Lemma leader_CompareAndSwap (s : LeaderServer) (key old new : string) :
  key ≠ "" -> fits (casRequest key old new) = true ->
  CompareAndSwap NewLeaderClient key old new s =
    (fst (cas s key old new), (snd (cas s key old new), None)).
Proof.
  intros Hk Hf. unfold CompareAndSwap, NewLeaderClient. cbn [cli].
  rewrite (serveConn_fits s _ Hf).
  rewrite (serve_casRequest s key old new Hk). cbn [fst snd].
  by destruct (snd (cas s key old new)).
Qed.

Lemma leader_CompareAndSwap_empty_key (s : LeaderServer) (old new : string) :
  fits (casRequest "" old new) = true ->
  CompareAndSwap NewLeaderClient "" old new s =
    (s, (false,
         Some (errStatus http.StatusBadRequest
                 ("key parameter missing" ++ LF)))).
Proof.
  intros Hf. unfold CompareAndSwap, NewLeaderClient. cbn [cli].
  rewrite (serveConn_fits s _ Hf).
  rewrite serve_patch by reflexivity.
  destruct (FormValue_casRequest "" old new) as (-> & _ & _).
  reflexivity.
Qed.

Lemma leader_Get (s : LeaderServer) (key : string) :
  key ≠ "" -> fits (getRequest key) = true ->
  Get NewLeaderClient key s = (s, (index (locks s) key, None)).
Proof.
  intros Hk Hf. unfold Get, NewLeaderClient. cbn [cli].
  rewrite (serveConn_fits s _ Hf).
  by rewrite (serve_getRequest s key Hk).
Qed.

(** ** Lock acquire and lock release on a leader nobody else talks to *)

Lemma acquire_unlocked (s : LeaderServer) (key : string) (fuel : nat) :
  key ≠ "" -> fits (casRequest key "" "1") = true ->
  index (locks s) key = "" ->
  lockAcquireAction NewLeaderClient (S fuel) key s =
    mkRun {| locks := <[key := "1"]> (locks s) |}
          [EvCompareAndSwap key "" "1" true None] (Return "").
Proof.
  intros Hk Hf Hs. cbn [lockAcquireAction].
  rewrite (leader_CompareAndSwap s key "" "1" Hk Hf).
  by rewrite (cas_match s key "" "1" Hs).
Qed.

Lemma acquire_empty_key (s : LeaderServer) (fuel : nat) :
  lockAcquireAction NewLeaderClient (S fuel) "" s =
    let e := errStatus http.StatusBadRequest ("key parameter missing" ++ LF) in
    mkRun s [EvCompareAndSwap "" "" "1" false (Some e)]
          (Exit 1 (casErrMessage e)).
Proof.
  cbn [lockAcquireAction].
  by rewrite (leader_CompareAndSwap_empty_key s "" "1" eq_refl).
Qed.

Lemma release_locked (s : LeaderServer) (key : string) :
  key ≠ "" -> fits (casRequest key "1" "") = true ->
  index (locks s) key = "1" ->
  lockReleaseAction NewLeaderClient key s =
    mkRun {| locks := <[key := ""]> (locks s) |}
          [EvCompareAndSwap key "1" "" true None] (Return "").
Proof.
  intros Hk Hf Hs. unfold lockReleaseAction.
  rewrite (leader_CompareAndSwap s key "1" "" Hk Hf).
  by rewrite (cas_match s key "1" "" Hs).
Qed.

Lemma release_not_locked (s : LeaderServer) (key : string) :
  key ≠ "" -> fits (casRequest key "1" "") = true ->
  index (locks s) key ≠ "1" ->
  lockReleaseAction NewLeaderClient key s =
    mkRun s [EvCompareAndSwap key "1" "" false None]
          (Exit 1 releaseInvalidState).
Proof.
  intros Hk Hf Hs. unfold lockReleaseAction.
  rewrite (leader_CompareAndSwap s key "1" "" Hk Hf).
  by rewrite (cas_mismatch s key "1" "" Hs).
Qed.

Lemma release_empty_key (s : LeaderServer) :
  lockReleaseAction NewLeaderClient "" s =
    let e := errStatus http.StatusBadRequest ("key parameter missing" ++ LF) in
    mkRun s [EvCompareAndSwap "" "1" "" false (Some e)]
          (Exit 1 (casErrMessage e)).
Proof.
  unfold lockReleaseAction.
  by rewrite (leader_CompareAndSwap_empty_key s "1" "" eq_refl).
Qed.

(** C4, as the code has it. For every key other than the empty string
    whose acquire and release requests are within the server's limit on
    request line and headers, and that is unlocked, acquire then release returns the key to
    the unlocked token, and the next acquire succeeds on its first
    compare-and-swap, without a sleep. *)
Theorem acquire_release_acquire (key : string) (s : LeaderServer) :
  key ≠ "" ->
  fits (casRequest key "" "1") = true -> fits (casRequest key "1" "") = true ->
  snd (load s key) = "" ->
  acquire_release_round_trip key s.
Proof.
  cbn [load snd]. intros Hk Hacq Hrel Hs fuel. cbv zeta.
  rewrite (acquire_unlocked s key fuel Hk Hacq Hs). cbn [world outcome].
  rewrite (release_locked _ key Hk Hrel) by apply index_insert_eq.
  cbn [world outcome load snd locks].
  rewrite (acquire_unlocked _ key fuel Hk Hacq) by apply index_insert_eq.
  cbn [outcome trace]. rewrite index_insert_eq. repeat split.
Qed.

Lemma acquire_release_acquire_witness :
  acquire_release_round_trip "llama" NewLeaderServer.
Proof.
  apply (acquire_release_acquire "llama" NewLeaderServer);
    [discriminate | vm_compute; reflexivity | vm_compute; reflexivity
    | reflexivity].
Defined.

(** C4, as it is written, fails at the empty key: the key is unlocked, and
    acquire ends in [os.Exit(1)] on the server's 400. *)
Lemma acquire_release_round_trip_empty_key :
  snd (load NewLeaderServer "") = ""
  /\ ~ acquire_release_round_trip "" NewLeaderServer.
Proof.
  split; [reflexivity |].
  intros H. destruct (H 0%nat) as [Ha _].
  rewrite acquire_empty_key in Ha. discriminate Ha.
Qed.

(** C7, as the code has it. For every key other than the empty string
    whose request is within the server's limit on request line and headers
    and whose token is not the locked one, an unlocked key among them,
    release ends in [os.Exit(1)] with the invalid-state diagnostic and the
    store is as it was. For the empty key release ends in [os.Exit(1)] as
    well, with the compare-and-swap error of the server's 400 as its
    diagnostic, and the store is as it was. *)
Theorem release_unlocked_fails (key : string) (s : LeaderServer) :
  snd (load s key) ≠ "1" -> fits (casRequest key "1" "") = true ->
  (key ≠ "" -> release_invalid_state key s)
  /\ (key = "" ->
      outcome (lockReleaseAction NewLeaderClient key s) =
        Exit 1 (casErrMessage
                  (errStatus http.StatusBadRequest
                     ("key parameter missing" ++ LF)))
      /\ world (lockReleaseAction NewLeaderClient key s) = s).
Proof.
  cbn [load snd]. intros Hs Hrel. split.
  - intros Hk. unfold release_invalid_state.
    rewrite (release_not_locked s key Hk Hrel Hs). split; reflexivity.
  - intros ->. clear Hrel. rewrite release_empty_key. split; reflexivity.
Qed.

Lemma release_unlocked_fails_witness :
  release_invalid_state "llama" NewLeaderServer.
Proof.
  apply (release_unlocked_fails "llama" NewLeaderServer);
    [vm_compute; discriminate | vm_compute; reflexivity | discriminate].
Defined.

(** C7, as it is written, fails at the empty key: the key is unlocked, and
    release reports the compare-and-swap error, not the invalid state. *)
Lemma release_invalid_state_empty_key :
  snd (load NewLeaderServer "") = ""
  /\ ~ release_invalid_state "" NewLeaderServer.
Proof.
  split; [reflexivity |].
  intros [H _]. rewrite release_empty_key in H. vm_compute in H.
  discriminate H.
Qed.

(** ** The client of a leader shared with other processes *)

Lemma shared_CompareAndSwap (w : LeaderServer * list (list Request))
    (key old new : string) :
  key ≠ "" -> fits (casRequest key old new) = true ->
  CompareAndSwap sharedClient key old new w =
    let s0 := serveAll (fst w) (List.filter fits (hd [] (snd w))) in
    ((fst (cas s0 key old new), tl (snd w)), (snd (cas s0 key old new), None)).
Proof.
  intros Hk Hf. unfold CompareAndSwap, sharedClient. cbn [cli]. cbv zeta.
  rewrite (serveConn_fits _ _ Hf).
  rewrite (serve_casRequest _ key old new Hk). cbn [fst snd].
  by destruct (snd (cas _ key old new)).
Qed.

Lemma shared_Get (w : LeaderServer * list (list Request)) (key : string) :
  key ≠ "" -> fits (getRequest key) = true ->
  Get sharedClient key w =
    let s0 := serveAll (fst w) (List.filter fits (hd [] (snd w))) in
    ((s0, tl (snd w)), (index (locks s0) key, None)).
Proof.
  intros Hk Hf. unfold Get, sharedClient. cbn [cli]. cbv zeta.
  rewrite (serveConn_fits _ _ Hf).
  by rewrite (serve_getRequest _ key Hk).
Qed.

Lemma serveAll_casRequest (s : LeaderServer) (key old new : string) :
  key ≠ "" -> fits (casRequest key old new) = true ->
  serveAll s (List.filter fits [casRequest key old new])
  = fst (cas s key old new).
Proof.
  intros Hk Hf. cbn [List.filter]. rewrite Hf.
  unfold serveAll. cbn [fold_left].
  by rewrite (serve_casRequest s key old new Hk).
Qed.

(** ** Lock acquire: the loop *)

Lemma CompareAndSwap_error {W : Type} (c : LeaderClient W)
    (key old new : string) (w w' : W) (done : bool) (e : error) :
  CompareAndSwap c key old new w = (w', (done, Some e)) -> done = false.
Proof.
  unfold CompareAndSwap. destruct (cli c _ w) as [w1 [err | resp]].
  - by intros [= _ <- _].
  - destruct (_ =? _); [done |]. destruct (_ =? _); [done |].
    destruct (Body resp); by intros [= _ <- _].
Qed.

Lemma acquire_trace {W : Type} (c : LeaderClient W) (key : string) :
  forall (fuel : nat) (w : W),
    let r := lockAcquireAction c fuel key w in
    match outcome r with
    | Return out =>
        out = ""
        /\ exists m : nat,
             (m < fuel)%nat
             /\ trace r = (retries m key
                           ++ [EvCompareAndSwap key "" "1" true None])%list
    | Exit code msg =>
        code = 1
        /\ exists (m : nat) (e : error),
             (m < fuel)%nat
             /\ trace r = (retries m key
                           ++ [EvCompareAndSwap key "" "1" false (Some e)])%list
             /\ msg = casErrMessage e
    | Running => trace r = retries fuel key
    end.
Proof.
  induction fuel as [| fuel IH]; intros w; cbv zeta; [reflexivity |].
  cbn [lockAcquireAction].
  destruct (CompareAndSwap c key "" "1" w) as [w1 [done [e |]]] eqn:Hcas.
  - apply CompareAndSwap_error in Hcas as ->. cbn [outcome trace].
    split; [done |]. exists 0%nat, e. split; [lia | done].
  - destruct done; cbn [outcome trace].
    + split; [done |]. exists 0%nat. split; [lia | done].
    + specialize (IH w1). cbv zeta in IH. unfold after. cbn [outcome trace].
      destruct (outcome (lockAcquireAction c fuel key w1)) as [out | code msg |].
      * destruct IH as (-> & m & Hm & ->). split; [done |].
        exists (S m). split; [lia | done].
      * destruct IH as (-> & m & e & Hm & -> & ->). split; [done |].
        exists (S m), e. split; [lia | done].
      * by rewrite IH.
Qed.

Lemma acquire_held (s : LeaderServer) (key : string) :
  key ≠ "" -> fits (casRequest key "" "1") = true ->
  index (locks s) key = "1" ->
  forall fuel : nat,
    lockAcquireAction NewLeaderClient fuel key s =
      mkRun s (retries fuel key) Running.
Proof.
  intros Hk Hf Hs. induction fuel as [| fuel IH]; [reflexivity |].
  cbn [lockAcquireAction].
  rewrite (leader_CompareAndSwap s key "" "1" Hk Hf).
  rewrite (cas_mismatch s key "" "1") by (rewrite Hs; discriminate).
  cbn [fst snd]. rewrite IH. reflexivity.
Qed.

Lemma acquire_after_release (s : LeaderServer) (key : string) (extra : nat) :
  key ≠ "" ->
  fits (casRequest key "" "1") = true -> fits (casRequest key "1" "") = true ->
  index (locks s) key = "1" ->
  forall n : nat,
    lockAcquireAction sharedClient (n + S extra) key
      (s, (replicate n [] ++ [[casRequest key "1" ""]])%list) =
      mkRun ({| locks := <[key := "1"]> (<[key := ""]> (locks s)) |}, [])
            (retries n key ++ [EvCompareAndSwap key "" "1" true None])%list
            (Return "").
Proof.
  intros Hk Hacq Hrel Hs. induction n as [| n IH].
  - cbn [Nat.add replicate app lockAcquireAction].
    rewrite (shared_CompareAndSwap _ key "" "1" Hk Hacq). cbn [fst snd hd tl].
    rewrite (serveAll_casRequest s key "1" "" Hk Hrel).
    rewrite (cas_match s key "1" "" Hs). cbn [fst].
    rewrite cas_match by apply index_insert_eq. reflexivity.
  - cbn [Nat.add replicate app lockAcquireAction].
    rewrite (shared_CompareAndSwap _ key "" "1" Hk Hacq). cbn [fst snd hd tl].
    change (serveAll s (List.filter fits [])) with s.
    rewrite (cas_mismatch s key "" "1") by (rewrite Hs; discriminate).
    cbn [fst snd]. rewrite IH. reflexivity.
Qed.

(** C8. The loop of lock acquire, over any client: every attempt is
    CompareAndSwap(key, UNLOCKED, LOCKED); the action returns only right after
    an attempt that returned true; every attempt that returned false is
    followed by the fixed sleep and then by the next attempt; and the number
    of retries has no bound: on a leader, for a key that is not empty and
    whose acquire and release requests are within the server's limit on
    request line and headers, while the lock stays held the loop is still going after any
    number of attempts, and when the holder releases before attempt [n + 1],
    acquire returns after exactly [n] retries. *)
Theorem acquire_loop_structure {W : Type} (c : LeaderClient W)
    (fuel : nat) (key : string) (w : W) (s : LeaderServer) :
  (let r := lockAcquireAction c fuel key w in
   match outcome r with
   | Return out =>
       out = ""
       /\ exists m : nat,
            (m < fuel)%nat
            /\ trace r = (retries m key
                           ++ [EvCompareAndSwap key "" "1" true None])%list
   | Exit code msg =>
       code = 1
       /\ exists (m : nat) (e : error),
            (m < fuel)%nat
            /\ trace r = (retries m key
                           ++ [EvCompareAndSwap key "" "1" false (Some e)])%list
            /\ msg = casErrMessage e
   | Running => trace r = retries fuel key
   end)
  /\ (key ≠ "" ->
      fits (casRequest key "" "1") = true ->
      fits (casRequest key "1" "") = true ->
      snd (load s key) = "1" ->
      lockAcquireAction NewLeaderClient fuel key s =
        mkRun s (retries fuel key) Running
      /\ forall extra : nat,
           lockAcquireAction sharedClient (fuel + S extra) key
             (s, (replicate fuel [] ++ [[casRequest key "1" ""]])%list) =
             mkRun ({| locks := <[key := "1"]> (<[key := ""]> (locks s)) |},
                    [])
                   (retries fuel key
                    ++ [EvCompareAndSwap key "" "1" true None])%list
                   (Return "")).
Proof.
  split; [apply acquire_trace |].
  cbn [load snd]. intros Hk Hacq Hrel Hs. split.
  - exact (acquire_held s key Hk Hacq Hs fuel).
  - intros extra. exact (acquire_after_release s key extra Hk Hacq Hrel Hs fuel).
Qed.

Lemma acquire_loop_structure_witness :
  let held := {| locks := {[ "llama" := "1" ]} |} in
  lockAcquireAction NewLeaderClient 3 "llama" held =
    mkRun held (retries 3 "llama") Running
  /\ lockAcquireAction sharedClient 4 "llama"
       (held, [[]; []; []; [casRequest "llama" "1" ""]]) =
       mkRun ({| locks := <["llama" := "1"]> (<["llama" := ""]> (locks held)) |},
              [])
             (retries 3 "llama"
              ++ [EvCompareAndSwap "llama" "" "1" true None])%list
             (Return "").
Proof.
  cbv zeta.
  destruct (acquire_loop_structure NewLeaderClient 3 "llama"
              {| locks := {[ "llama" := "1" ]} |}
              {| locks := {[ "llama" := "1" ]} |}) as [_ H].
  destruct H as [Hheld Hrel];
    [discriminate | vm_compute; reflexivity | vm_compute; reflexivity
    | reflexivity |].
  split; [exact Hheld | exact (Hrel 0%nat)].
Defined.

(** ** Lock do and lock done *)

Lemma do_new (s : LeaderServer) (key : string) (fuel : nat) :
  key ≠ "" ->
  fits (getRequest key) = true -> fits (casRequest key "" "1") = true ->
  index (locks s) key = "" ->
  lockDoAction NewLeaderClient (S fuel) key s =
    mkRun {| locks := <[key := "1"]> (locks s) |}
          [EvGet key "" None; EvCompareAndSwap key "" "1" true None]
          (Return ("do" ++ LF)).
Proof.
  intros Hk Hg Hc Hs. cbn [lockDoAction].
  rewrite (leader_Get s key Hk Hg), Hs. cbn [String.eqb].
  rewrite (leader_CompareAndSwap s key "" "1" Hk Hc).
  rewrite (cas_match s key "" "1" Hs). reflexivity.
Qed.

Lemma do_doing (s : LeaderServer) (key : string) :
  key ≠ "" -> fits (getRequest key) = true ->
  index (locks s) key = "1" ->
  forall fuel : nat,
    lockDoAction NewLeaderClient fuel key s = mkRun s (polls fuel key) Running.
Proof.
  intros Hk Hg Hs. induction fuel as [| fuel IH]; [reflexivity |].
  cbn [lockDoAction]. rewrite (leader_Get s key Hk Hg), Hs.
  change (String.eqb "1" "") with false.
  change (String.eqb "1" "1") with true. cbv iota.
  rewrite IH. reflexivity.
Qed.

Lemma do_done (s : LeaderServer) (key : string) (fuel : nat) :
  key ≠ "" -> fits (getRequest key) = true ->
  index (locks s) key = "2" ->
  lockDoAction NewLeaderClient (S fuel) key s =
    mkRun s [EvGet key "2" None] (Return ("done" ++ LF)).
Proof.
  intros Hk Hg Hs. cbn [lockDoAction].
  rewrite (leader_Get s key Hk Hg), Hs. reflexivity.
Qed.

Lemma done_doing_rejected (s : LeaderServer) (key : string) :
  key ≠ "" -> fits (casRequest key "doing" "done") = true ->
  index (locks s) key = "1" ->
  clicommand.lockDoneAction NewLeaderClient key s =
    mkRun s [EvCompareAndSwap key "doing" "done" false None]
          (Exit 1 doneInvalidState).
Proof.
  intros Hk Hf Hs. unfold clicommand.lockDoneAction.
  rewrite (leader_CompareAndSwap s key "doing" "done" Hk Hf).
  rewrite (cas_mismatch s key "doing" "done") by (rewrite Hs; discriminate).
  reflexivity.
Qed.

Lemma done_part_003 (s : LeaderServer) (key : string) :
  key ≠ "" -> fits (casRequest key "1" "2") = true ->
  index (locks s) key = "1" ->
  part_003.lockDoneAction NewLeaderClient key s =
    mkRun {| locks := <[key := "2"]> (locks s) |}
          [EvCompareAndSwap key "1" "2" true None] (Return "").
Proof.
  intros Hk Hf Hs. unfold part_003.lockDoneAction.
  rewrite (leader_CompareAndSwap s key "1" "2" Hk Hf).
  rewrite (cas_match s key "1" "2" Hs). reflexivity.
Qed.

(** A waiting lock do on a shared leader: the worker's request of
    [clicommand/lock_done.go] changes nothing, whenever it arrives. *)
Lemma do_waits_for_ever (key : string) :
  key ≠ "" -> fits (getRequest key) = true ->
  forall (fuel : nat) (s : LeaderServer) (others : list (list Request)),
    index (locks s) key = "1" ->
    Forall (fun b => b = [] \/ b = [casRequest key "doing" "done"]) others ->
    lockDoAction sharedClient fuel key (s, others) =
      mkRun (s, drop fuel others) (polls fuel key) Running.
Proof.
  intros Hk Hg. induction fuel as [| fuel IH]; intros s others Hs Hall.
  - rewrite drop_0. reflexivity.
  - cbn [lockDoAction]. rewrite (shared_Get _ key Hk Hg). cbn [fst snd].
    assert (Hserve : serveAll s (List.filter fits (hd [] others)) = s).
    { destruct Hall as [| b bs [-> | ->] _]; cbn [hd List.filter];
        [reflexivity | reflexivity |].
      destruct (fits (casRequest key "doing" "done")); [| reflexivity].
      unfold serveAll. cbn [fold_left].
      rewrite (serve_casRequest s key "doing" "done" Hk). cbn [fst].
      rewrite cas_mismatch by (rewrite Hs; discriminate). reflexivity. }
    rewrite Hserve, Hs.
    change (String.eqb "1" "") with false.
    change (String.eqb "1" "1") with true. cbv iota.
    rewrite IH; [| exact Hs | destruct Hall; [constructor | assumption]].
    unfold after. cbn [world trace outcome polls].
    destruct others; cbn [tl]; [rewrite !drop_nil |]; reflexivity.
Qed.

(** With the request of [unnamed/part_003] the waiting lock do returns. *)
Lemma do_waits_for_part_003 (s : LeaderServer) (key : string) (extra : nat) :
  key ≠ "" ->
  fits (getRequest key) = true -> fits (casRequest key "1" "2") = true ->
  index (locks s) key = "1" ->
  forall n : nat,
    lockDoAction sharedClient (n + S extra) key
      (s, (replicate n [] ++ [[casRequest key "1" "2"]])%list) =
      mkRun ({| locks := <[key := "2"]> (locks s) |}, [])
            ((polls n key ++ [EvGet key "2" None])%list)
            (Return ("done" ++ LF)).
Proof.
  intros Hk Hg Hf Hs. induction n as [| n IH].
  - cbn [Nat.add replicate app lockDoAction].
    rewrite (shared_Get _ key Hk Hg). cbn [fst snd hd tl].
    rewrite (serveAll_casRequest s key "1" "2" Hk Hf).
    rewrite (cas_match s key "1" "2" Hs). cbn [fst locks].
    rewrite index_insert_eq. reflexivity.
  - cbn [Nat.add replicate app lockDoAction].
    rewrite (shared_Get _ key Hk Hg). cbn [fst snd hd tl].
    change (serveAll s (List.filter fits [])) with s. rewrite Hs.
    change (String.eqb "1" "") with false.
    change (String.eqb "1" "1") with true. cbv iota.
    rewrite IH. reflexivity.
Qed.

(** X19. The round trip of the do-once barrier with lock done as
    [unnamed/part_003] has it, for every key other than the empty string
    whose requests are within the server's limit on request line and
    headers: the first lock do prints do; a second one polls; lock done
    returns; the waiting lock do then prints done; and a later lock do
    prints done after one read, without a sleep. *)
Lemma do_once_round_trip_part_003 (key : string) (s : LeaderServer)
    (n fuel : nat) :
  key ≠ "" -> fitsKey key = true -> index (locks s) key = "" ->
  let d1 := lockDoAction NewLeaderClient (S fuel) key s in
  let dn := part_003.lockDoneAction NewLeaderClient key (world d1) in
  outcome d1 = Return ("do" ++ LF)
  /\ lockDoAction NewLeaderClient n key (world d1) =
       mkRun (world d1) (polls n key) Running
  /\ outcome dn = Return ""
  /\ outcome (lockDoAction sharedClient (n + S fuel) key
                (world d1,
                 (replicate n [] ++ [[casRequest key "1" "2"]])%list))
     = Return ("done" ++ LF)
  /\ lockDoAction NewLeaderClient (S fuel) key (world dn) =
       mkRun (world dn) [EvGet key "2" None] (Return ("done" ++ LF)).
Proof.
  intros Hk Hfits Hs. cbv zeta.
  destruct (fitsKey_requests key Hfits) as (Hg & Hc & _ & Hd & _).
  clear Hfits.
  rewrite (do_new s key fuel Hk Hg Hc Hs).
  cbn [world outcome].
  assert (H1 : index (locks {| locks := <[key := "1"]> (locks s) |}) key = "1")
    by apply index_insert_eq.
  rewrite (done_part_003 _ key Hk Hd H1). cbn [world outcome].
  rewrite (do_doing _ key Hk Hg H1 n).
  rewrite (do_waits_for_part_003 _ key fuel Hk Hg Hd H1 n).
  rewrite (do_done _ key fuel Hk Hg) by apply index_insert_eq.
  repeat split.
Qed.

(** C2, on the code. The first lock do on the unset key llama prints do and
    leaves the token ["1"]. Lock done of [clicommand/lock_done.go] then asks
    to swap ["doing"] for ["done"]: it exits 1 with the invalid-state message
    and the token stays ["1"]. From then on every lock do on the key polls
    without end, also when the worker's request arrives while it waits. With
    lock done of [unnamed/part_003], which swaps ["1"] for ["2"], the same
    run completes. *)
Theorem do_once_done_rejected :
  let d1 := lockDoAction NewLeaderClient 1 "llama" NewLeaderServer in
  let dn := clicommand.lockDoneAction NewLeaderClient "llama" (world d1) in
  outcome d1 = Return ("do" ++ LF)
  /\ snd (load (world d1) "llama") = "1"
  /\ outcome dn = Exit 1 doneInvalidState
  /\ world dn = world d1
  /\ (forall fuel : nat,
        lockDoAction NewLeaderClient fuel "llama" (world dn) =
          mkRun (world dn) (polls fuel "llama") Running)
  /\ (forall n fuel : nat,
        outcome (lockDoAction sharedClient fuel "llama"
                   (world d1,
                    (replicate n []
                     ++ [[casRequest "llama" "doing" "done"]])%list))
        = Running)
  /\ outcome (part_003.lockDoneAction NewLeaderClient "llama" (world d1))
     = Return ""
  /\ (forall n : nat,
        outcome (lockDoAction sharedClient (n + 1) "llama"
                   (world d1,
                    (replicate n [] ++ [[casRequest "llama" "1" "2"]])%list))
        = Return ("done" ++ LF)).
Proof.
  cbv zeta.
  assert (Hk : "llama" ≠ "") by discriminate.
  assert (Hfits : fitsKey "llama" = true) by (vm_compute; reflexivity).
  destruct (fitsKey_requests "llama" Hfits) as (Hg & Hc & _ & Hd & Hdd).
  clear Hfits.
  rewrite (do_new NewLeaderServer "llama" 0 Hk Hg Hc eq_refl).
  cbn [world outcome].
  set (s1 := {| locks := <["llama" := "1"]> (locks NewLeaderServer) |}).
  assert (H1 : index (locks s1) "llama" = "1") by reflexivity.
  rewrite (done_doing_rejected s1 "llama" Hk Hdd H1). cbn [world outcome].
  split; [reflexivity |]. split; [reflexivity |].
  split; [reflexivity |]. split; [reflexivity |].
  split; [apply (do_doing s1 "llama" Hk Hg H1) |].
  split.
  - intros n fuel.
    rewrite (do_waits_for_ever "llama" Hk Hg fuel s1); [reflexivity | exact H1 |].
    clear Hg Hc Hd Hdd.
    apply Forall_app. split.
    + apply Forall_forall. intros b Hb. left.
      by apply elem_of_replicate in Hb as [-> _].
    + apply Forall_cons. split; [by right | apply Forall_nil_2].
  - rewrite (done_part_003 s1 "llama" Hk Hd H1). split; [reflexivity |].
    intros n. rewrite (do_waits_for_part_003 s1 "llama" 0 Hk Hg Hd H1 n).
    reflexivity.
Qed.

(** ** More on the handler *)

Lemma serve_not_found (s : LeaderServer) (r : Request) :
  Path r ≠ lockPath ->
  serve s r = (s, Error newResponseWriter "not found" http.StatusNotFound).
Proof.
  intros Hp. unfold serve, ServeHTTP.
  by rewrite (proj2 (String.eqb_neq _ _) Hp).
Qed.

Lemma serve_not_allowed (s : LeaderServer) (r : Request) :
  Path r = lockPath ->
  Method r ≠ http.MethodGet -> Method r ≠ http.MethodPatch ->
  serve s r = (s, Error newResponseWriter "unsupported method"
                    http.StatusMethodNotAllowed).
Proof.
  intros Hp Hg Hpa. unfold serve, ServeHTTP. rewrite Hp.
  change (String.eqb lockPath lockPath) with true. cbn [negb].
  rewrite (proj2 (String.eqb_neq _ _) Hg).
  by rewrite (proj2 (String.eqb_neq _ _) Hpa).
Qed.

(** X1. A request for any other path is answered 404 with the body
    [not found], whatever its method and parameters, and the store is as it
    was. *)
Theorem serve_other_path (s : LeaderServer) (r : Request) :
  Path r ≠ lockPath ->
  serve s r = (s, Error newResponseWriter "not found" http.StatusNotFound)
  /\ status s r = http.StatusNotFound
  /\ Body (deliver (snd (serve s r))) = inr ("not found" ++ LF).
Proof.
  intros Hp. unfold status. by rewrite (serve_not_found s r Hp).
Qed.

Lemma serve_other_path_witness :
  status {| locks := {[ "k" := "1" ]} |}
         {| Method := http.MethodPatch; Path := "/api/leader/v1/lock";
            Form := Set_ (Set_ (Set_ ∅ "key" "k") "old" "1") "new" "" |}
  = http.StatusNotFound.
Proof.
  apply (serve_other_path {| locks := {[ "k" := "1" ]} |}
           {| Method := http.MethodPatch; Path := "/api/leader/v1/lock";
              Form := Set_ (Set_ (Set_ ∅ "key" "k") "old" "1") "new" "" |}).
  discriminate.
Defined.

(** X2. On the lock path every method other than GET and PATCH is answered
    405 with the body [unsupported method], and the store is as it was. *)
Theorem serve_other_method (s : LeaderServer) (r : Request) :
  Path r = lockPath ->
  Method r ≠ http.MethodGet -> Method r ≠ http.MethodPatch ->
  serve s r = (s, Error newResponseWriter "unsupported method"
                    http.StatusMethodNotAllowed)
  /\ status s r = http.StatusMethodNotAllowed.
Proof.
  intros Hp Hg Hpa. unfold status.
  by rewrite (serve_not_allowed s r Hp Hg Hpa).
Qed.

Lemma serve_other_method_witness :
  status NewLeaderServer
         {| Method := "POST"; Path := lockPath; Form := Set_ ∅ "key" "k" |}
  = http.StatusMethodNotAllowed.
Proof.
  apply (serve_other_method NewLeaderServer
           {| Method := "POST"; Path := lockPath; Form := Set_ ∅ "key" "k" |});
    [reflexivity | discriminate | discriminate].
Defined.

(** X3. A GET on the lock path with a key that is not empty is answered 200
    with exactly the current token of the key as body, the empty body for a
    key that is not set, and the store is as it was. *)
Theorem serve_get_token (s : LeaderServer) (r : Request) :
  Method r = http.MethodGet -> Path r = lockPath -> FormValue r "key" ≠ "" ->
  fst (serve s r) = s
  /\ status s r = http.StatusOK
  /\ Body (deliver (snd (serve s r))) = inr (snd (load s (FormValue r "key"))).
Proof.
  intros Hm Hp Hk. unfold status. rewrite (serve_get s r Hm Hp).
  by rewrite (proj2 (String.eqb_neq _ _) Hk).
Qed.

Lemma serve_get_token_witness :
  Body (deliver (snd (serve {| locks := {[ "k" := "1" ]} |} (getRequest "k"))))
  = inr "1".
Proof.
  destruct (serve_get_token {| locks := {[ "k" := "1" ]} |} (getRequest "k"))
    as (_ & _ & H); [reflexivity | reflexivity | vm_compute; discriminate |].
  exact H.
Defined.

Lemma status_cases (s : LeaderServer) (r : Request) :
  (status s r = http.StatusNoContent
   /\ Method r = http.MethodPatch /\ Path r = lockPath
   /\ FormValue r "key" ≠ ""
   /\ index (locks s) (FormValue r "key") = FormValue r "old"
   /\ fst (serve s r) =
        {| locks := <[FormValue r "key" := FormValue r "new"]> (locks s) |})
  \/ (In (status s r) [http.StatusOK; http.StatusNotModified;
                       http.StatusBadRequest; http.StatusNotFound;
                       http.StatusMethodNotAllowed]
      /\ fst (serve s r) = s).
Proof.
  destruct (String.eqb_spec (Path r) lockPath) as [Hp | Hp].
  2: { right. unfold status. rewrite (serve_not_found s r Hp).
       split; [cbn; tauto | done]. }
  destruct (String.eqb_spec (Method r) http.MethodGet) as [Hg | Hg].
  { right. unfold status. rewrite (serve_get s r Hg Hp).
    destruct (String.eqb (FormValue r "key") ""); (split; [cbn; tauto | done]). }
  destruct (String.eqb_spec (Method r) http.MethodPatch) as [Hpa | Hpa].
  2: { right. unfold status. rewrite (serve_not_allowed s r Hp Hg Hpa).
       split; [cbn; tauto | done]. }
  unfold status. rewrite (serve_patch s r Hpa Hp).
  destruct (String.eqb_spec (FormValue r "key") "") as [Hk | Hk].
  { right. split; [cbn; tauto | done]. }
  destruct (String.eqb_spec (index (locks s) (FormValue r "key"))
              (FormValue r "old")) as [Ho | Ho].
  - left. rewrite (cas_match _ _ _ _ Ho). by repeat split.
  - right. rewrite (cas_mismatch _ _ _ _ Ho). split; [cbn; tauto | done].
Qed.

(** X4. Every answer of the handler has one of the statuses 200, 204, 304,
    400, 404, 405, and only a 204 comes with a changed store: whenever the
    status is not 204 the store is as it was, and a 204 is given only to a
    PATCH on the lock path whose key is not empty and whose [old] equals the
    current token. *)
Theorem serve_changes_only_on_204 (s : LeaderServer) (r : Request) :
  In (status s r) [http.StatusOK; http.StatusNoContent;
                   http.StatusNotModified; http.StatusBadRequest;
                   http.StatusNotFound; http.StatusMethodNotAllowed]
  /\ (status s r ≠ http.StatusNoContent -> fst (serve s r) = s)
  /\ (status s r = http.StatusNoContent ->
      Method r = http.MethodPatch /\ Path r = lockPath
      /\ FormValue r "key" ≠ ""
      /\ snd (load s (FormValue r "key")) = FormValue r "old").
Proof.
  destruct (status_cases s r) as [(Hst & Hm & Hp & Hk & Ho & Hs) | [Hin Hs]].
  - split; [rewrite Hst; cbn; tauto |]. split; [done |].
    intros _. by repeat split.
  - split; [cbn in *; tauto |]. split; [done |].
    intros Hst. rewrite Hst in Hin. cbn in Hin.
    unfold http.StatusNoContent, http.StatusOK, http.StatusNotModified,
      http.StatusBadRequest, http.StatusNotFound,
      http.StatusMethodNotAllowed in Hin.
    exfalso. intuition lia.
Qed.

Lemma serve_changes_only_on_204_witness :
  fst (serve {| locks := {[ "k" := "1" ]} |} (casRequest "k" "" "1"))
  = {| locks := {[ "k" := "1" ]} |}.
Proof.
  destruct (serve_changes_only_on_204 {| locks := {[ "k" := "1" ]} |}
              (casRequest "k" "" "1")) as (_ & H & _).
  apply H. vm_compute. discriminate.
Defined.

Lemma serve_frame_key (s : LeaderServer) (r : Request) (key' : string) :
  key' ≠ FormValue r "key" ->
  locks (fst (serve s r)) !! key' = locks s !! key'.
Proof.
  intros Hne.
  destruct (status_cases s r) as [(_ & _ & _ & _ & _ & ->) | [_ ->]]; [| done].
  cbn [locks]. by rewrite lookup_insert_ne.
Qed.

(** X5. A request changes at most the entry of the key it names: the entry
    of every other key, set or not, is the same after the request. *)
Theorem serve_frame (s : LeaderServer) (r : Request) (key' : string) :
  key' ≠ FormValue r "key" ->
  locks (fst (serve s r)) !! key' = locks s !! key'.
Proof.
  intros Hne.
  destruct (status_cases s r) as [(_ & _ & _ & _ & _ & ->) | [_ ->]]; [| done].
  cbn [locks]. by rewrite lookup_insert_ne.
Qed.

Lemma serve_frame_witness :
  locks (fst (serve {| locks := {[ "a" := "1" ]} |} (casRequest "b" "" "1")))
    !! "a" = Some "1".
Proof.
  rewrite (serve_frame {| locks := {[ "a" := "1" ]} |}
             (casRequest "b" "" "1") "a"); [reflexivity |].
  vm_compute. discriminate.
Defined.

Lemma serve_empty_key_unset (s : LeaderServer) (r : Request) :
  locks s !! "" = None -> locks (fst (serve s r)) !! "" = None.
Proof.
  intros Hs.
  destruct (status_cases s r) as [(_ & _ & _ & Hk & _ & ->) | [_ ->]]; [| done].
  cbn [locks]. by rewrite lookup_insert_ne.
Qed.

(** X6. No sequence of requests gives the empty key an entry: on a leader
    that started with [NewLeaderServer], whatever requests it has served, the
    store has no entry for the empty string. *)
Theorem empty_key_never_set (rs : list Request) :
  locks (serveAll NewLeaderServer rs) !! "" = None.
Proof.
  assert (H : forall s, locks s !! "" = None ->
                        locks (serveAll s rs) !! "" = None).
  { induction rs as [| r rs IH]; intros s Hs; [done |].
    unfold serveAll. cbn [fold_left]. apply IH.
    by apply serve_empty_key_unset. }
  by apply H.
Qed.

Lemma serveSeq_swaps_lose (key old : string) :
  key ≠ "" ->
  forall (rs : list Request) (s : LeaderServer),
    index (locks s) key ≠ old ->
    Forall (swapOf key old) rs ->
    serveSeq s rs = (s, replicate (List.length rs) http.StatusNotModified).
Proof.
  intros Hk. induction rs as [| r rs IH]; intros s Hs Hall; [done |].
  apply Forall_cons in Hall as [(Hm & Hp & Hkey & Hold & _) Hall].
  cbn [serveSeq]. rewrite (serve_patch s r Hm Hp), Hkey, Hold.
  rewrite (proj2 (String.eqb_neq _ _) Hk).
  rewrite (cas_mismatch s key old _ Hs).
  by rewrite (IH s Hs Hall).
Qed.

Lemma count_occ_replicate_ne (n : nat) (a b : Z) :
  a ≠ b -> count_occ Z.eq_dec (replicate n a) b = 0%nat.
Proof.
  intros Hne. induction n as [| n IH]; [done |].
  cbn [replicate]. by rewrite count_occ_cons_neq.
Qed.

(** X7. At most one of several swaps from the same old value wins. Served
    in any order, compare-and-swap requests on one key that expect the same
    [old] and write something else get one 204 at most: the first one, when
    the token is [old], and none otherwise; all the others get 304. *)
Theorem one_swap_wins (key old : string) (rs : list Request)
    (s : LeaderServer) :
  key ≠ "" -> Forall (swapOf key old) rs ->
  let codes := snd (serveSeq s rs) in
  (count_occ Z.eq_dec codes http.StatusNoContent <= 1)%nat
  /\ (snd (load s key) = old ->
      codes = match rs with
              | [] => []
              | _ :: rs' =>
                  http.StatusNoContent
                    :: replicate (List.length rs') http.StatusNotModified
              end)
  /\ (snd (load s key) ≠ old ->
      codes = replicate (List.length rs) http.StatusNotModified).
Proof.
  intros Hk Hall. cbn [load snd]. cbv zeta.
  destruct (decide (index (locks s) key = old)) as [Hs | Hs].
  - assert (Hc : (serveSeq s rs).2 =
                 match rs with
                 | [] => []
                 | _ :: rs' =>
                     http.StatusNoContent
                       :: replicate (List.length rs') http.StatusNotModified
                 end).
    { destruct rs as [| r rs]; [done |].
      apply Forall_cons in Hall as [(Hm & Hp & Hkey & Hold & Hnew) Hall].
      cbn [serveSeq]. rewrite (serve_patch s r Hm Hp), Hkey, Hold.
      rewrite (proj2 (String.eqb_neq _ _) Hk).
      rewrite (cas_match s key old _ Hs).
      rewrite (serveSeq_swaps_lose key old Hk rs); [done | | done].
      cbn [locks]. by rewrite index_insert_eq. }
    rewrite Hc. split; [| by split].
    destruct rs as [| r rs]; [cbn; lia |].
    rewrite count_occ_cons_eq by done.
    by rewrite count_occ_replicate_ne.
  - rewrite (serveSeq_swaps_lose key old Hk rs s Hs Hall). cbn [snd].
    split; [| by split].
    rewrite count_occ_replicate_ne by done. lia.
Qed.

Lemma one_swap_wins_witness :
  snd (serveSeq NewLeaderServer
         [casRequest "k" "" "a"; casRequest "k" "" "b"; casRequest "k" "" "c"])
  = [http.StatusNoContent; http.StatusNotModified; http.StatusNotModified].
Proof.
  assert (Hall : Forall (swapOf "k" "")
            [casRequest "k" "" "a"; casRequest "k" "" "b";
             casRequest "k" "" "c"]).
  { repeat constructor; discriminate. }
  destruct (one_swap_wins "k" ""
              [casRequest "k" "" "a"; casRequest "k" "" "b";
               casRequest "k" "" "c"] NewLeaderServer) as (_ & H & _);
    [discriminate | exact Hall |].
  apply H. reflexivity.
Defined.

(** ** More on the client *)

(** X8. What the client makes of a response to its Get request: 200 with a
    readable body gives the body and no error; 200 with a body that cannot
    be read gives the read error; every other status gives an error whose
    message holds the status code and, when the body could be read, the body.
    With an error the value is always the empty string. *)
Theorem client_get_result {W : Type} (c : LeaderClient W) (key : string)
    (w w' : W) (resp : Response) :
  cli c (getRequest key) w = (w', inr resp) ->
  let result := snd (Get c key w) in
  fst (Get c key w) = w'
  /\ (StatusCode resp = http.StatusOK ->
      match Body resp with
      | inr v => result = (v, None)
      | inl e => result = ("", Some e)
      end)
  /\ (StatusCode resp ≠ http.StatusOK ->
      exists e : error,
        result = ("", Some e)
        /\ contains (pretty (StatusCode resp)) e = true
        /\ forall b : string, Body resp = inr b -> contains b e = true).
Proof.
  intros Hcli. unfold Get. rewrite Hcli.
  destruct (Z.eqb_spec (StatusCode resp) http.StatusOK) as [Hc | Hc];
    cbn [negb].
  - split; [by destruct (Body resp) |]. split; [| done].
    intros _. by destruct (Body resp).
  - split; [by destruct (Body resp) |]. split; [done |].
    intros _. destruct (Body resp) as [err | b].
    + exists (errStatusUnread (StatusCode resp)).
      split; [done |]. split; [apply contains_app | done].
    + exists (errStatus (StatusCode resp) b).
      split; [done |]. split; [apply contains_app |].
      intros b' [= <-]. unfold errStatus.
      do 3 apply contains_skip. apply contains_self.
Qed.

Lemma client_get_result_witness :
  snd (Get NewLeaderClient "k" {| locks := {[ "k" := "2" ]} |})
  = ("2", None).
Proof.
  assert (Hcli : cli NewLeaderClient (getRequest "k")
                   {| locks := {[ "k" := "2" ]} |} =
                 ({| locks := {[ "k" := "2" ]} |},
                  inr {| StatusCode := 200; Body := inr "2" |}))
    by (vm_compute; reflexivity).
  destruct (client_get_result NewLeaderClient "k" _ _ _ Hcli) as (_ & H & _).
  exact (H eq_refl).
Defined.

(** X9. Read after write through the client: when both requests are
    within the server's limit on request line and headers, after
    CompareAndSwap on a key that is not empty, Get gives [new] when the swap
    was reported done and the token from before when it was not, in both
    cases without error, and neither call fails. *)
Theorem client_get_after_cas (s : LeaderServer) (key old new : string) :
  key ≠ "" ->
  fits (casRequest key old new) = true -> fits (getRequest key) = true ->
  let '(s1, (replaced, err)) := CompareAndSwap NewLeaderClient key old new s in
  err = None
  /\ Get NewLeaderClient key s1 =
       (s1, (if replaced then new else snd (load s key), None)).
Proof.
  intros Hk Hc Hg. rewrite (leader_CompareAndSwap s key old new Hk Hc).
  split; [reflexivity |]. rewrite (leader_Get _ key Hk Hg). cbn [load snd].
  clear Hc Hg.
  unfold cas. destruct (String.eqb _ _); cbn [fst snd locks]; [| done].
  by rewrite index_insert_eq.
Qed.

Lemma client_get_after_cas_witness :
  let '(s1, (replaced, err)) :=
    CompareAndSwap NewLeaderClient "build-lock" "" "1" NewLeaderServer in
  err = None
  /\ Get NewLeaderClient "build-lock" s1 =
       (s1, (if replaced then "1"
             else snd (load NewLeaderServer "build-lock"), None)).
Proof.
  apply (client_get_after_cas NewLeaderServer "build-lock" "" "1");
    [discriminate | vm_compute; reflexivity | vm_compute; reflexivity].
Defined.

(** Get with the empty key never reaches the store: whatever the store
    holds, the client returns the empty value with the error of the server's
    400, and the store is as it was. *)
Lemma client_get_empty_key (s : LeaderServer) :
  Get NewLeaderClient "" s =
    (s, ("", Some (errStatus http.StatusBadRequest
                     ("key parameter missing" ++ LF)))).
Proof.
  unfold Get, NewLeaderClient. cbn [cli].
  rewrite (serveConn_fits s (getRequest "") eq_refl).
  rewrite serve_get by reflexivity.
  rewrite FormValue_getRequest. reflexivity.
Qed.

(** ** More on the lock commands *)

(** X10. The loop of lock do, over any client. It prints do only right
    after a read that gave the empty token and a swap of it for ["1"] that
    was reported done; it prints done only right after a read that gave
    ["2"]; it prints nothing else; it exits only with status 1; and all it
    ever does to the store is read its key and try that one swap. *)
Theorem do_loop_structure {W : Type} (c : LeaderClient W) (key : string)
    (fuel : nat) (w : W) :
  let r := lockDoAction c fuel key w in
  Forall (doEvent key) (trace r)
  /\ match outcome r with
     | Return out =>
         (out = "do" ++ LF
          /\ exists pre : list Event,
               trace r = (pre ++ [EvGet key "" None;
                                  EvCompareAndSwap key "" "1" true None])%list)
         \/ (out = "done" ++ LF
             /\ exists pre : list Event,
                  trace r = (pre ++ [EvGet key "2" None])%list)
     | Exit code msg =>
         code = 1
         /\ ((exists e : error, msg = getErrMessage e)
             \/ (exists e : error, msg = casErrMessage e)
             \/ msg = doInvalidState)
     | Running => True
     end.
Proof.
  revert w. induction fuel as [| fuel IH]; intros w; cbv zeta.
  { split; [constructor | done]. }
  cbn [lockDoAction].
  destruct (Get c key w) as [w1 [state [e |]]] eqn:Hget.
  { cbn [trace outcome]. split; [by repeat constructor |].
    split; [done |]. left. by exists e. }
  destruct (String.eqb_spec state "") as [-> | Hne].
  - destruct (CompareAndSwap c key "" "1" w1) as [w2 [done [e |]]] eqn:Hcas.
    { cbn [trace outcome]. split; [by repeat constructor |].
      split; [done |]. right. left. by exists e. }
    destruct done.
    + cbn [trace outcome]. split; [by repeat constructor |].
      left. split; [done |]. by exists [].
    + destruct (IH w2) as [Hall Hout]. unfold after. cbn [trace outcome].
      split; [by repeat constructor |].
      destruct (outcome (lockDoAction c fuel key w2)) as [out | |]; [| done..].
      destruct Hout as [(-> & pre & ->) | (-> & pre & ->)].
      * left. split; [done |].
        by exists (EvGet key "" None
                   :: EvCompareAndSwap key "" "1" false None :: pre).
      * right. split; [done |].
        by exists (EvGet key "" None
                   :: EvCompareAndSwap key "" "1" false None :: pre).
  - destruct (String.eqb_spec state "1") as [-> | Hne1].
    + destruct (IH w1) as [Hall Hout]. unfold after. cbn [trace outcome].
      split; [by repeat constructor |].
      destruct (outcome (lockDoAction c fuel key w1)) as [out | |]; [| done..].
      destruct Hout as [(-> & pre & ->) | (-> & pre & ->)].
      * left. split; [done |].
        by exists (EvGet key "1" None :: EvSleep pollInterval :: pre).
      * right. split; [done |].
        by exists (EvGet key "1" None :: EvSleep pollInterval :: pre).
    + destruct (String.eqb_spec state "2") as [-> | Hne2].
      * cbn [trace outcome]. split; [by repeat constructor |].
        right. split; [done |]. by exists [].
      * cbn [trace outcome]. split; [by repeat constructor |].
        split; [done |]. by right; right.
Qed.

(** X11. Lock do on a key whose token is none of the three it knows: for a
    key that is not empty, whose requests are within the server's limit on
    request line and headers, and a token other than the empty one, ["1"]
    and ["2"], lock do reads once, exits 1 with its invalid-state message,
    and the store is as it was. *)
Theorem do_invalid_token (s : LeaderServer) (key : string) (fuel : nat) :
  key ≠ "" -> fitsKey key = true ->
  snd (load s key) ≠ "" -> snd (load s key) ≠ "1" -> snd (load s key) ≠ "2" ->
  lockDoAction NewLeaderClient (S fuel) key s =
    mkRun s [EvGet key (snd (load s key)) None] (Exit 1 doInvalidState).
Proof.
  cbn [load snd]. intros Hk Hfits H0 H1 H2. cbn [lockDoAction].
  destruct (fitsKey_requests key Hfits) as (Hg & _). clear Hfits.
  rewrite (leader_Get s key Hk Hg).
  rewrite (proj2 (String.eqb_neq _ _) H0).
  rewrite (proj2 (String.eqb_neq _ _) H1).
  rewrite (proj2 (String.eqb_neq _ _) H2). reflexivity.
Qed.

Lemma do_invalid_token_witness :
  lockDoAction NewLeaderClient 1 "llama" {| locks := {[ "llama" := "done" ]} |}
  = mkRun {| locks := {[ "llama" := "done" ]} |}
          [EvGet "llama"
             (snd (load {| locks := {[ "llama" := "done" ]} |} "llama")) None]
          (Exit 1 doInvalidState).
Proof.
  apply (do_invalid_token {| locks := {[ "llama" := "done" ]} |} "llama" 0);
    [discriminate | vm_compute; reflexivity | vm_compute; discriminate
    | vm_compute; discriminate | vm_compute; discriminate].
Defined.

(** X12. A lost race in lock do, for a key that is not empty and whose
    requests are within the server's limit on request line and headers. When
    another process swaps the empty token for ["1"] between the read and the
    swap of this lock do, its own swap is reported not done, it does not
    print do, and it goes on to poll; when the other process then marks the
    work done with the swap of ["1"] for ["2"], it prints done. *)
Theorem do_lost_race (s : LeaderServer) (key : string) (n extra : nat) :
  key ≠ "" -> fitsKey key = true -> snd (load s key) = "" ->
  lockDoAction sharedClient (S (n + S extra)) key
    (s, [] :: [casRequest key "" "1"]
           :: (replicate n [] ++ [[casRequest key "1" "2"]])%list) =
    mkRun ({| locks := <[key := "2"]> (<[key := "1"]> (locks s)) |}, [])
          (EvGet key "" None :: EvCompareAndSwap key "" "1" false None
             :: (polls n key ++ [EvGet key "2" None])%list)
          (Return ("done" ++ LF)).
Proof.
  cbn [load snd]. intros Hk Hfits Hs. cbn [lockDoAction].
  destruct (fitsKey_requests key Hfits) as (Hg & Hc & _ & Hd & _).
  clear Hfits.
  rewrite (shared_Get _ key Hk Hg). cbn [fst snd hd tl].
  change (serveAll s (List.filter fits [])) with s. rewrite Hs.
  cbn [String.eqb].
  rewrite (shared_CompareAndSwap _ key "" "1" Hk Hc). cbn [fst snd hd tl].
  rewrite (serveAll_casRequest s key "" "1" Hk Hc).
  rewrite (cas_match s key "" "1" Hs). cbn [fst].
  rewrite cas_mismatch
    by (cbn [locks]; rewrite index_insert_eq; discriminate).
  cbn [fst snd].
  rewrite (do_waits_for_part_003 _ key extra Hk Hg Hd)
    by apply index_insert_eq.
  reflexivity.
Qed.

Lemma do_lost_race_witness :
  outcome (lockDoAction sharedClient 4 "llama"
             (NewLeaderServer,
              [[]; [casRequest "llama" "" "1"]; []; [];
               [casRequest "llama" "1" "2"]]))
  = Return ("done" ++ LF).
Proof.
  assert (Hk : "llama" ≠ "") by discriminate.
  assert (Hfits : fitsKey "llama" = true) by (vm_compute; reflexivity).
  exact (f_equal outcome
           (do_lost_race NewLeaderServer "llama" 2 0 Hk Hfits eq_refl)).
Defined.

(** X13. Lock done of [clicommand/lock_done.go] on a key that is not
    empty and whose requests are within the server's limit on request line
    and headers: when the token is ["doing"] it swaps it for ["done"] and
    returns, and a lock do on the key then exits 1 with its invalid-state
    message; on every other token it exits 1 with the invalid-state message
    of lock done and the store is as it was. *)
Theorem done_swaps_doing (s : LeaderServer) (key : string) :
  key ≠ "" -> fitsKey key = true ->
  (snd (load s key) = "doing" ->
   let dn := clicommand.lockDoneAction NewLeaderClient key s in
   dn = mkRun {| locks := <[key := "done"]> (locks s) |}
              [EvCompareAndSwap key "doing" "done" true None] (Return "")
   /\ forall fuel : nat,
        lockDoAction NewLeaderClient (S fuel) key (world dn) =
          mkRun (world dn) [EvGet key "done" None] (Exit 1 doInvalidState))
  /\ (snd (load s key) ≠ "doing" ->
      clicommand.lockDoneAction NewLeaderClient key s =
        mkRun s [EvCompareAndSwap key "doing" "done" false None]
              (Exit 1 doneInvalidState)).
Proof.
  cbn [load snd]. intros Hk Hfits.
  destruct (fitsKey_requests key Hfits) as (Hg & _ & _ & _ & Hdd).
  clear Hfits. split; intros Hs; cbv zeta.
  - unfold clicommand.lockDoneAction.
    rewrite (leader_CompareAndSwap s key "doing" "done" Hk Hdd).
    rewrite (cas_match s key "doing" "done" Hs). cbn [fst snd negb world].
    split; [reflexivity |]. intros fuel. cbn [lockDoAction].
    rewrite (leader_Get _ key Hk Hg). cbn [locks].
    rewrite index_insert_eq. reflexivity.
  - unfold clicommand.lockDoneAction.
    rewrite (leader_CompareAndSwap s key "doing" "done" Hk Hdd).
    rewrite (cas_mismatch s key "doing" "done" Hs). reflexivity.
Qed.

Lemma done_swaps_doing_witness :
  clicommand.lockDoneAction NewLeaderClient "llama" NewLeaderServer =
    mkRun NewLeaderServer [EvCompareAndSwap "llama" "doing" "done" false None]
          (Exit 1 doneInvalidState).
Proof.
  apply (done_swaps_doing NewLeaderServer "llama");
    [discriminate | vm_compute; reflexivity | vm_compute; discriminate].
Defined.

(** X14. Lock done of [unnamed/part_003] is not repeatable: on a key that
    is not empty, whose requests are within the server's limit on request
    line and headers, with the token ["1"], the first lock done swaps it for
    ["2"] and returns, and a second lock done exits 1 with the invalid-state
    message and leaves the token ["2"]. *)
Theorem done_twice_part_003 (s : LeaderServer) (key : string) :
  key ≠ "" -> fitsKey key = true -> snd (load s key) = "1" ->
  let d1 := part_003.lockDoneAction NewLeaderClient key s in
  let d2 := part_003.lockDoneAction NewLeaderClient key (world d1) in
  outcome d1 = Return ""
  /\ snd (load (world d1) key) = "2"
  /\ outcome d2 = Exit 1 doneInvalidState
  /\ world d2 = world d1.
Proof.
  cbn [load snd]. intros Hk Hfits Hs. cbv zeta.
  destruct (fitsKey_requests key Hfits) as (_ & _ & _ & Hd & _).
  clear Hfits.
  rewrite (done_part_003 s key Hk Hd Hs). cbn [world outcome locks].
  rewrite index_insert_eq. unfold part_003.lockDoneAction.
  rewrite (leader_CompareAndSwap _ key "1" "2" Hk Hd).
  rewrite cas_mismatch
    by (cbn [locks]; rewrite index_insert_eq; discriminate).
  repeat split.
Qed.

Lemma done_twice_part_003_witness :
  let s := {| locks := {[ "llama" := "1" ]} |} in
  let d1 := part_003.lockDoneAction NewLeaderClient "llama" s in
  let d2 := part_003.lockDoneAction NewLeaderClient "llama" (world d1) in
  outcome d1 = Return ""
  /\ snd (load (world d1) "llama") = "2"
  /\ outcome d2 = Exit 1 doneInvalidState
  /\ world d2 = world d1.
Proof.
  apply (done_twice_part_003 {| locks := {[ "llama" := "1" ]} |} "llama");
    [discriminate | vm_compute; reflexivity | reflexivity].
Defined.

(** X15. A lock is released once: on a key that is not empty, whose
    requests are within the server's limit on request line and headers, with
    the locked token, release returns and leaves the key unlocked, and a
    second release exits 1 with the invalid-state message and changes
    nothing. *)
Theorem release_twice (s : LeaderServer) (key : string) :
  key ≠ "" -> fitsKey key = true -> snd (load s key) = "1" ->
  let r1 := lockReleaseAction NewLeaderClient key s in
  let r2 := lockReleaseAction NewLeaderClient key (world r1) in
  outcome r1 = Return ""
  /\ snd (load (world r1) key) = ""
  /\ outcome r2 = Exit 1 releaseInvalidState
  /\ world r2 = world r1.
Proof.
  cbn [load snd]. intros Hk Hfits Hs. cbv zeta.
  destruct (fitsKey_requests key Hfits) as (_ & _ & Hrel & _).
  clear Hfits.
  rewrite (release_locked s key Hk Hrel Hs). cbn [world outcome locks].
  rewrite index_insert_eq.
  rewrite (release_not_locked _ key Hk Hrel)
    by (cbn [locks]; rewrite index_insert_eq; discriminate).
  repeat split.
Qed.

Lemma release_twice_witness :
  let s := {| locks := {[ "llama" := "1" ]} |} in
  let r1 := lockReleaseAction NewLeaderClient "llama" s in
  let r2 := lockReleaseAction NewLeaderClient "llama" (world r1) in
  outcome r1 = Return ""
  /\ snd (load (world r1) "llama") = ""
  /\ outcome r2 = Exit 1 releaseInvalidState
  /\ world r2 = world r1.
Proof.
  apply (release_twice {| locks := {[ "llama" := "1" ]} |} "llama");
    [discriminate | vm_compute; reflexivity | reflexivity].
Defined.

(** X16. A failed round trip is fatal and is not retried. When the client's
    call fails with an error, lock acquire and lock do stop at that first
    call and exit 1 with the error in the message, whatever the fuel; the
    loops do not sleep and do not call again. *)
Theorem transport_error_is_fatal {W : Type} (c : LeaderClient W)
    (key : string) (w w' : W) (err : error) (fuel : nat) :
  (cli c (casRequest key "" "1") w = (w', inl err) ->
   lockAcquireAction c (S fuel) key w =
     mkRun w' [EvCompareAndSwap key "" "1" false (Some err)]
           (Exit 1 (casErrMessage err)))
  /\ (cli c (getRequest key) w = (w', inl err) ->
      lockDoAction c (S fuel) key w =
        mkRun w' [EvGet key "" (Some err)] (Exit 1 (getErrMessage err))).
Proof.
  split; intros Hcli.
  - cbn [lockAcquireAction]. unfold CompareAndSwap. by rewrite Hcli.
  - cbn [lockDoAction]. unfold Get. by rewrite Hcli.
Qed.

Lemma transport_error_is_fatal_witness :
  lockAcquireAction (brokenClient "connection refused") 5 "llama" tt =
    mkRun tt [EvCompareAndSwap "llama" "" "1" false (Some "connection refused")]
          (Exit 1 (casErrMessage "connection refused"))
  /\ lockDoAction (brokenClient "connection refused") 5 "llama" tt =
       mkRun tt [EvGet "llama" "" (Some "connection refused")]
             (Exit 1 (getErrMessage "connection refused")).
Proof.
  split.
  - apply (transport_error_is_fatal (brokenClient "connection refused")
             "llama" tt tt "connection refused" 4). reflexivity.
  - apply (transport_error_is_fatal (brokenClient "connection refused")
             "llama" tt tt "connection refused" 4). reflexivity.
Defined.

Lemma do_once_round_trip_part_003_witness :
  outcome (lockDoAction NewLeaderClient 1 "llama" NewLeaderServer)
  = Return ("do" ++ LF).
Proof.
  destruct (do_once_round_trip_part_003 "llama" NewLeaderServer 3 0)
    as (H & _); [discriminate | vm_compute; reflexivity | reflexivity |].
  exact H.
Defined.

(** ** [generateS3Clients] *)

Section GenerateS3ClientsFacts.
Import artifact_downloader.
Context {S3 : Type}.
Variable ParseS3Destination : string -> string * string.
Variable mk : string -> list string -> error + S3.

Local Abbreviation bucket := (bucketOf ParseS3Destination).
Local Abbreviation loop :=
  (generateS3Clients_loop ParseS3Destination (logged mk)).

Lemma generateS3Clients_loop_inv (artifacts : list Artifact) :
  forall (m : gmap string S3) (calls0 calls1 : list string)
         (res : error + gmap string S3),
    loop m artifacts calls0 = (calls1, res) ->
    exists calls : list string,
      calls1 = (calls0 ++ calls)%list
      /\ NoDup calls
      /\ (forall b : string,
            b ∈ calls ->
            m !! b = None
            /\ exists a : Artifact,
                 a ∈ artifacts /\ isS3 a = true /\ bucket a = b)
      /\ match res with
         | inr m' =>
             dom m' = dom m ∪ list_to_set calls
             /\ (forall b : string, is_Some (m !! b) -> m' !! b = m !! b)
             /\ (forall a : Artifact,
                   a ∈ artifacts -> isS3 a = true -> is_Some (m' !! bucket a))
         | inl e =>
             exists (pre : list string) (b : string) (err : error),
               calls = (pre ++ [b])%list
               /\ mk b (calls0 ++ pre)%list = inl err
               /\ e = "failed to create S3 client for bucket "
                      ++ b ++ ": " ++ err
         end.
Proof.
  induction artifacts as [| a rest IH]; intros m calls0 calls1 res Hrun.
  - injection Hrun as <- <-. exists []. rewrite app_nil_r.
    split; [done |]. split; [constructor |].
    split; [intros b Hb; by apply elem_of_nil in Hb |].
    split; [cbn [list_to_set]; by rewrite (right_id_L ∅ (∪)) |].
    split; [done |]. intros a Ha. by apply elem_of_nil in Ha.
  - cbn [generateS3Clients_loop] in Hrun.
    destruct (isS3 a) eqn:Hs3; cbn [negb] in Hrun.
    2: { destruct (IH _ _ _ _ Hrun) as (calls & -> & Hnd & Hin & Hres).
         exists calls. split; [done |]. split; [done |]. split.
         - intros b Hb. destruct (Hin b Hb) as (Hm & a' & Ha' & Hs & Hb').
           split; [done |]. exists a'.
           split; [apply elem_of_cons; by right | done].
         - destruct res as [e | m']; [done |].
           destruct Hres as (Hdom & Hkept & Hall).
           split; [done |]. split; [done |].
           intros a' [-> | Ha']%elem_of_cons Hs; [congruence | by apply Hall]. }
    destruct (m !! bucket a) as [client0 |] eqn:Hlook.
    { destruct (IH _ _ _ _ Hrun) as (calls & -> & Hnd & Hin & Hres).
      exists calls. split; [done |]. split; [done |]. split.
      - intros b Hb. destruct (Hin b Hb) as (Hm & a' & Ha' & Hs & Hb').
        split; [done |]. exists a'.
           split; [apply elem_of_cons; by right | done].
      - destruct res as [e | m']; [done |].
        destruct Hres as (Hdom & Hkept & Hall).
        split; [done |]. split; [done |].
        intros a' [-> | Ha']%elem_of_cons Hs; [| by apply Hall].
        rewrite Hkept by (by rewrite Hlook). by rewrite Hlook. }
    unfold logged in Hrun at 1.
    destruct (mk (bucket a) calls0) as [err | client] eqn:Hmk.
    { injection Hrun as <- <-. exists [bucket a].
      split; [done |]. split; [apply NoDup_singleton |]. split.
      - intros b ->%list_elem_of_singleton. split; [done |].
        exists a. split; [apply elem_of_cons; by left | done].
      - exists [], (bucket a), err. by rewrite app_nil_r. }
    destruct (IH _ _ _ _ Hrun) as (calls & -> & Hnd & Hin & Hres).
    exists (bucket a :: calls).
    split; [by rewrite <- app_assoc |].
    assert (Hfresh : bucket a ∉ calls).
    { intros Hb. destruct (Hin _ Hb) as [Hm _].
      by rewrite lookup_insert_eq in Hm. }
    split; [by apply NoDup_cons |]. split.
    + intros b [-> | Hb]%elem_of_cons.
      * split; [done |]. exists a.
        split; [apply elem_of_cons; by left | done].
      * destruct (Hin b Hb) as (Hm & a' & Ha' & Hs & Hb').
        split;
          [| exists a'; split; [apply elem_of_cons; by right | done]].
        destruct (decide (bucket a = b)) as [<- | Hne]; [done |].
        by rewrite lookup_insert_ne in Hm.
    + destruct res as [e | m'].
      * destruct Hres as (pre & b & err & -> & Hmkb & ->).
        exists (bucket a :: pre), b, err. split; [done |].
        split; [| done]. by rewrite <- app_assoc in Hmkb.
      * destruct Hres as (Hdom & Hkept & Hall).
        split.
        { rewrite Hdom, dom_insert_L. cbn [list_to_set].
          rewrite (comm_L (∪) {[bucket a]} (dom m)).
          by rewrite <- (assoc_L (∪)). }
        split.
        -- intros b Hb. rewrite Hkept.
           ++ apply lookup_insert_ne. intros <-.
              rewrite Hlook in Hb. by destruct Hb.
           ++ rewrite lookup_insert_ne; [done |]. intros <-.
              rewrite Hlook in Hb. by destruct Hb.
        -- intros a' [-> | Ha']%elem_of_cons Hs; [| by apply Hall].
           rewrite Hkept by (by rewrite lookup_insert_eq).
           by rewrite lookup_insert_eq.
Qed.

(** X17. [generateS3Clients] makes one client per bucket. When it
    succeeds, [NewS3Client] was called exactly once for each bucket of an
    artifact whose upload destination starts with [s3://], for no other
    bucket, and the map it returns has exactly these buckets as keys;
    artifacts with another destination are skipped. *)
Theorem generateS3Clients_one_per_bucket (artifacts : list Artifact)
    (calls : list string) (m : gmap string S3) :
  generateS3Clients ParseS3Destination (logged mk) artifacts [] =
    (calls, inr m) ->
  NoDup calls
  /\ dom m = list_to_set calls
  /\ forall b : string,
       b ∈ calls <->
       exists a : Artifact, a ∈ artifacts /\ isS3 a = true /\ bucket a = b.
Proof.
  intros Hrun.
  destruct (generateS3Clients_loop_inv artifacts ∅ [] calls (inr m) Hrun)
    as (calls' & Heq & Hnd & Hin & Hdom & _ & Hall).
  cbn [app] in Heq. subst calls'. rewrite dom_empty_L in Hdom.
  assert (Hd : dom m = list_to_set calls)
    by (by rewrite Hdom, (left_id_L ∅ (∪))).
  split; [done |]. split; [done |].
  intros b. split.
  - intros Hb. by destruct (Hin b Hb) as [_ Ha].
  - intros (a & Ha & Hs & <-).
    apply (elem_of_list_to_set (C := gset string)). rewrite <- Hd.
    apply elem_of_dom. by apply Hall.
Qed.

(** X18. [generateS3Clients] stops at the first client it cannot make.
    When it fails, the failing call of [NewS3Client] is the last call made,
    it was made for the bucket of an artifact with an [s3://] destination, no
    bucket was asked for twice, and the error names that bucket and carries
    the error of [NewS3Client]. *)
Theorem generateS3Clients_first_failure (artifacts : list Artifact)
    (calls : list string) (e : error) :
  generateS3Clients ParseS3Destination (logged mk) artifacts [] =
    (calls, inl e) ->
  NoDup calls
  /\ exists (pre : list string) (b : string) (err : error),
       calls = (pre ++ [b])%list
       /\ mk b pre = inl err
       /\ e = "failed to create S3 client for bucket " ++ b ++ ": " ++ err
       /\ exists a : Artifact,
            a ∈ artifacts /\ isS3 a = true /\ bucket a = b.
Proof.
  intros Hrun.
  destruct (generateS3Clients_loop_inv artifacts ∅ [] calls (inl e) Hrun)
    as (calls' & Heq & Hnd & Hin & pre & b & err & Hc & Hmk & He).
  cbn [app] in Heq, Hmk. subst calls'. split; [done |].
  exists pre, b, err. split; [done |]. split; [done |]. split; [done |].
  apply Hin. rewrite Hc. apply elem_of_app. right.
  by apply list_elem_of_singleton.
Qed.

End GenerateS3ClientsFacts.

Lemma generateS3Clients_one_per_bucket_witness :
  let parse := fun d : string => (d, "") in
  let artifacts :=
    [artifact_downloader.mkArtifact "s3://a/x";
     artifact_downloader.mkArtifact "gs://b/y";
     artifact_downloader.mkArtifact "s3://c/z";
     artifact_downloader.mkArtifact "s3://a/x"] in
  NoDup ["s3://a/x"; "s3://c/z"]
  /\ dom (<["s3://c/z" := 2%nat]> (<["s3://a/x" := 1%nat]> ∅) : gmap string nat)
     = list_to_set ["s3://a/x"; "s3://c/z"]
  /\ forall b : string,
       b ∈ ["s3://a/x"; "s3://c/z"] <->
       exists a : artifact_downloader.Artifact,
         a ∈ artifacts /\ artifact_downloader.isS3 a = true
         /\ artifact_downloader.bucketOf parse a = b.
Proof.
  cbv zeta.
  apply (generateS3Clients_one_per_bucket (fun d : string => (d, ""))
           (fun b calls => inr (S (List.length calls)))).
  vm_compute. reflexivity.
Defined.

Lemma generateS3Clients_first_failure_witness :
  let parse := fun d : string => (d, "") in
  let artifacts :=
    [artifact_downloader.mkArtifact "s3://a/x";
     artifact_downloader.mkArtifact "s3://c/z";
     artifact_downloader.mkArtifact "s3://d/w"] in
  NoDup ["s3://a/x"; "s3://c/z"]
  /\ exists (pre : list string) (b : string) (err : error),
       ["s3://a/x"; "s3://c/z"] = (pre ++ [b])%list
       /\ (if String.eqb b "s3://c/z" then inl "no credentials"
           else inr (List.length pre) : error + nat) = inl err
       /\ "failed to create S3 client for bucket s3://c/z: no credentials"
          = "failed to create S3 client for bucket " ++ b ++ ": " ++ err
       /\ exists a : artifact_downloader.Artifact,
            a ∈ artifacts /\ artifact_downloader.isS3 a = true
            /\ artifact_downloader.bucketOf parse a = b.
Proof.
  cbv zeta.
  apply (generateS3Clients_first_failure (fun d : string => (d, ""))
           (fun b calls => if String.eqb b "s3://c/z" then inl "no credentials"
                           else inr (List.length calls))).
  vm_compute. reflexivity.
Defined.

(** ** The lock commands and the rest of the store *)

Lemma leader_CompareAndSwap_frame (s : LeaderServer)
    (key old new key' : string) :
  key' ≠ key ->
  locks (fst (CompareAndSwap NewLeaderClient key old new s)) !! key'
  = locks s !! key'.
Proof.
  intros Hne. unfold CompareAndSwap, NewLeaderClient. cbn [cli].
  assert (Hw : locks (fst (serveConn s (casRequest key old new))) !! key'
               = locks s !! key').
  { unfold serveConn. destruct (fits (casRequest key old new)); [| done].
    change (ServeHTTP s newResponseWriter) with (serve s).
    destruct (serve s (casRequest key old new)) as [s1 w] eqn:Hserve.
    cbn [fst]. change s1 with (fst (s1, w)). rewrite <- Hserve.
    apply serve_frame_key.
    by destruct (FormValue_casRequest key old new) as (-> & _). }
  destruct (serveConn s (casRequest key old new)) as [s1 resp].
  cbn [fst] in Hw.
  destruct (StatusCode resp =? http.StatusNoContent); [done |].
  destruct (StatusCode resp =? http.StatusNotModified); [done |].
  by destruct (Body resp).
Qed.

Lemma leader_Get_world (s : LeaderServer) (key : string) :
  fst (Get NewLeaderClient key s) = s.
Proof.
  unfold Get, NewLeaderClient. cbn [cli].
  assert (Hw : fst (serveConn s (getRequest key)) = s).
  { unfold serveConn. destruct (fits (getRequest key)); [| done].
    change (ServeHTTP s newResponseWriter) with (serve s).
    destruct (serve s (getRequest key)) as [s1 w] eqn:Hserve.
    cbn [fst]. change s1 with (fst (s1, w)). rewrite <- Hserve.
    rewrite serve_get by reflexivity.
    by destruct (String.eqb _ _). }
  destruct (serveConn s (getRequest key)) as [s1 resp].
  cbn [fst] in Hw. subst s1.
  destruct (negb _); by destruct (Body resp).
Qed.

Lemma acquire_frame (key key' : string) :
  key' ≠ key ->
  forall (fuel : nat) (s : LeaderServer),
    locks (world (lockAcquireAction NewLeaderClient fuel key s)) !! key'
    = locks s !! key'.
Proof.
  intros Hne. induction fuel as [| fuel IH]; intros s; [done |].
  cbn [lockAcquireAction].
  pose proof (leader_CompareAndSwap_frame s key "" "1" key' Hne) as Hf.
  destruct (CompareAndSwap NewLeaderClient key "" "1" s)
    as [s1 [ok [e |]]]; cbn [fst] in Hf; [done |].
  destruct ok; [done |]. unfold after. cbn [world]. by rewrite IH.
Qed.

Lemma do_frame (key key' : string) :
  key' ≠ key ->
  forall (fuel : nat) (s : LeaderServer),
    locks (world (lockDoAction NewLeaderClient fuel key s)) !! key'
    = locks s !! key'.
Proof.
  intros Hne. induction fuel as [| fuel IH]; intros s; [done |].
  cbn [lockDoAction].
  pose proof (leader_Get_world s key) as Hg.
  destruct (Get NewLeaderClient key s) as [s1 [state [e |]]];
    cbn [fst] in Hg; subst s1; [done |].
  destruct (String.eqb state "").
  - pose proof (leader_CompareAndSwap_frame s key "" "1" key' Hne) as Hf.
    destruct (CompareAndSwap NewLeaderClient key "" "1" s)
      as [s2 [ok [e |]]]; cbn [fst] in Hf; [done |].
    destruct ok; [done |]. unfold after. cbn [world]. by rewrite IH.
  - destruct (String.eqb state "1").
    + unfold after. cbn [world]. by rewrite IH.
    + by destruct (String.eqb state "2").
Qed.

(** X20. A lock command on a leader touches no key but its own: after lock
    acquire, lock release, lock do, or either lock done on [key], however it
    ended, the entry of every other key is as it was. *)
Theorem commands_frame (s : LeaderServer) (key key' : string) (fuel : nat) :
  key' ≠ key ->
  locks (world (lockAcquireAction NewLeaderClient fuel key s)) !! key'
    = locks s !! key'
  /\ locks (world (lockReleaseAction NewLeaderClient key s)) !! key'
     = locks s !! key'
  /\ locks (world (lockDoAction NewLeaderClient fuel key s)) !! key'
     = locks s !! key'
  /\ locks (world (clicommand.lockDoneAction NewLeaderClient key s)) !! key'
     = locks s !! key'
  /\ locks (world (part_003.lockDoneAction NewLeaderClient key s)) !! key'
     = locks s !! key'.
Proof.
  intros Hne.
  split; [by apply acquire_frame |].
  split.
  { unfold lockReleaseAction.
    pose proof (leader_CompareAndSwap_frame s key "1" "" key' Hne) as Hf.
    destruct (CompareAndSwap NewLeaderClient key "1" "" s)
      as [s1 [ok [e |]]]; cbn [fst] in Hf; [done |]. by destruct ok. }
  split; [by apply do_frame |].
  split.
  { unfold clicommand.lockDoneAction.
    pose proof (leader_CompareAndSwap_frame s key "doing" "done" key' Hne)
      as Hf.
    destruct (CompareAndSwap NewLeaderClient key "doing" "done" s)
      as [s1 [ok [e |]]]; cbn [fst] in Hf; [done |]. by destruct ok. }
  unfold part_003.lockDoneAction.
  pose proof (leader_CompareAndSwap_frame s key "1" "2" key' Hne) as Hf.
  destruct (CompareAndSwap NewLeaderClient key "1" "2" s)
    as [s1 [ok [e |]]]; cbn [fst] in Hf; [done |]. by destruct ok.
Qed.

Lemma commands_frame_witness :
  locks (world (lockAcquireAction NewLeaderClient 3 "a"
                  {| locks := {[ "b" := "1" ]} |})) !! "b" = Some "1".
Proof.
  destruct (commands_frame {| locks := {[ "b" := "1" ]} |} "a" "b" 3)
    as [H _]; [discriminate |].
  rewrite H. reflexivity.
Defined.

(** ** The do-once tokens only move forward *)

Lemma do_once_step (s : LeaderServer) (r : Request) (key : string)
    (n : nat) :
  doOnceRequest r ->
  rank (index (locks s) key) = Some n ->
  exists n' : nat,
    rank (index (locks (fst (serve s r))) key) = Some n' /\ (n <= n')%nat.
Proof.
  intros Hr Hn.
  assert (Hswap : forall k old new n1,
            rank new = Some n1 -> (rank old = Some n -> (n <= n1)%nat) ->
            exists n' : nat,
              rank (index (locks (fst (serve s (casRequest k old new)))) key)
              = Some n' /\ (n <= n')%nat).
  { intros k old new n1 Hnew Hle.
    destruct (decide (k = "")) as [-> | Hk].
    { rewrite serve_patch by reflexivity.
      destruct (FormValue_casRequest "" old new) as (-> & _ & _).
      by exists n. }
    rewrite (serve_casRequest s k old new Hk). cbn [fst]. unfold cas.
    destruct (String.eqb_spec (index (locks s) k) old) as [Ho | Ho];
      cbn [fst locks]; [| by exists n].
    destruct (decide (k = key)) as [-> | Hne].
    - rewrite index_insert_eq. exists n1. split; [done |].
      apply Hle. by rewrite <- Ho.
    - rewrite (index_insert_ne _ k key new Hne). by exists n. }
  destruct Hr as [[k ->] | [[k ->] | [k ->]]].
  - destruct (decide (k = "")) as [-> | Hk].
    + rewrite serve_get by reflexivity. rewrite FormValue_getRequest.
      by exists n.
    + rewrite (serve_getRequest s k Hk). by exists n.
  - apply (Hswap k "" "1" 1%nat); [done |]. intros [= <-]. lia.
  - apply (Hswap k "1" "2" 2%nat); [done |]. intros [= <-]. lia.
Qed.

(** X21. Under the requests of lock do and of the lock done of
    [unnamed/part_003], on whatever keys and in whatever order, a do-once
    token only moves forward: a key whose token is the empty one, ["1"] or
    ["2"] keeps a token of these three, never an earlier one; a key that is
    done stays done. *)
Theorem do_once_monotone (rs : list Request) (s : LeaderServer)
    (key : string) (n : nat) :
  Forall doOnceRequest rs ->
  rank (snd (load s key)) = Some n ->
  (exists n' : nat,
     rank (snd (load (serveAll s rs) key)) = Some n' /\ (n <= n')%nat)
  /\ (snd (load s key) = "2" -> snd (load (serveAll s rs) key) = "2").
Proof.
  cbn [load snd]. intros Hall Hn.
  assert (H : exists n' : nat,
            rank (index (locks (serveAll s rs)) key) = Some n'
            /\ (n <= n')%nat).
  { revert s n Hn. induction Hall as [| r rs Hr _ IH]; intros s n Hn.
    - by exists n.
    - destruct (do_once_step s r key n Hr Hn) as (n1 & Hn1 & Hle1).
      destruct (IH _ _ Hn1) as (n2 & Hn2 & Hle2).
      exists n2. split; [exact Hn2 | lia]. }
  split; [exact H |].
  intros H2. rewrite H2 in Hn. injection Hn as <-.
  destruct H as (n' & Hn' & Hle).
  unfold rank in Hn'.
  destruct (String.eqb_spec (index (locks (serveAll s rs)) key) "");
    [injection Hn' as <-; lia |].
  destruct (String.eqb_spec (index (locks (serveAll s rs)) key) "1");
    [injection Hn' as <-; lia |].
  destruct (String.eqb_spec (index (locks (serveAll s rs)) key) "2");
    [done | discriminate].
Qed.

Lemma do_once_monotone_witness :
  snd (load (serveAll {| locks := {[ "llama" := "2" ]} |}
               [casRequest "llama" "" "1"; getRequest "llama";
                casRequest "llama" "1" "2"; casRequest "alpaca" "" "1"])
            "llama") = "2".
Proof.
  assert (Hall : Forall doOnceRequest
            [casRequest "llama" "" "1"; getRequest "llama";
             casRequest "llama" "1" "2"; casRequest "alpaca" "" "1"]).
  { apply Forall_cons. split; [right; left; by exists "llama" |].
    apply Forall_cons. split; [left; by exists "llama" |].
    apply Forall_cons. split; [right; right; by exists "llama" |].
    apply Forall_cons. split; [right; left; by exists "alpaca" |].
    apply Forall_nil_2. }
  assert (Hn : rank (snd (load {| locks := {[ "llama" := "2" ]} |} "llama"))
               = Some 2%nat) by (vm_compute; reflexivity).
  destruct (do_once_monotone _ {| locks := {[ "llama" := "2" ]} |} "llama" 2
              Hall Hn) as [_ H].
  apply H. vm_compute. reflexivity.
Defined.
